(** * adx-mcp-server: the query adapter of [server.py]

    A shallow embedding of [src/adx-mcp-server/server.py]: the configuration
    record, the client factory [get_kusto_client], the result normaliser
    [format_query_results] and the four tools [execute_query], [list_tables],
    [get_table_schema] and [sample_table_data].

    Python objects are modelled as follows.
    - [str] is [string]; an [Optional[str]] field is [option string].
    - A [dict] is an association list kept in insertion order with unique
      keys; [d[k] = v] is [Dict.set].
    - [raise] is the [Raise] outcome; module state (the global [config]) and
      the calls made to the Kusto library are threaded through a state and
      error monad [M]. *)

From Stdlib Require Import List String Ascii ZArith Lia Bool.
From Stdlib Require Import DecimalString DecimalZ DecimalPos.
Import ListNotations.
Local Open Scope string_scope.
Local Open Scope list_scope.

Set Implicit Arguments.

(** ** Exceptions *)

Inductive Exn : Type :=
| ValueError (msg : string)
| IndexError (msg : string)
| KustoError (msg : string).

(** The text of [str(e)]. *)
Definition message (e : Exn) : string :=
  match e with
  | ValueError m | IndexError m | KustoError m => m
  end.

Inductive Outcome (A : Type) : Type :=
| Ok (a : A)
| Raise (e : Exn).

Arguments Ok {A} a.
Arguments Raise {A} e.

(** A value of Python's type [int]: an integer of any size, or one of the
    two [bool]s, which Python counts among the ints. *)
Inductive Int : Type :=
| IInt (n : Z)
| IBool (b : bool).

(** ** Strings *)

Module Str.

(** Python's truth value of a [str]: every string but the empty one. *)
Definition truthy (s : string) : bool :=
  match s with
  | EmptyString => false
  | String _ _ => true
  end.

(** Python's [needle in hay] on strings. *)
Fixpoint contains (needle hay : string) : bool :=
  if String.prefix needle hay then true
  else match hay with
       | EmptyString => false
       | String _ hay' => contains needle hay'
       end.

(** The decimal numeral of an integer, with [-] before a negative one. *)
Definition decimal (n : Z) : string :=
  NilZero.string_of_int (Z.to_int n).

(** CPython's default limit on the digits of an int that is turned into a
    string ([sys.get_int_max_str_digits()]), which the program leaves as it
    is. *)
Definition int_max_str_digits : Z := 4300.

(** The least magnitude with more digits than the limit. *)
Definition digit_bound : Z := 10 ^ int_max_str_digits.

Definition DIGIT_LIMIT : string :=
  "Exceeds the limit (4300 digits) for integer string conversion; use sys.set_int_max_str_digits() to increase the limit".

(** Python's [str(x)] for an [int], which is also what a replacement field
    [{x}] of an f-string gives: [True] or [False] for a [bool], the decimal
    numeral for an integer of at most [int_max_str_digits] digits, and a
    [ValueError] for a longer one. *)
Definition of_int (x : Int) : Outcome string :=
  match x with
  | IBool true => Ok "True"
  | IBool false => Ok "False"
  | IInt n =>
      if (Z.abs n <? digit_bound)%Z then Ok (decimal n)
      else Raise (ValueError DIGIT_LIMIT)
  end.

End Str.

(** ** Values and dictionaries *)

(** The scalars a Kusto row can hold. *)
Inductive Value : Type :=
| VNone
| VBool (b : bool)
| VInt (n : Z)
| VStr (s : string)
| VDatetime (ticks : Z).

Module Dict.

(** An insertion-ordered dictionary with [string] keys. *)
Definition t : Type := list (string * Value).

Definition empty : t := [].

(** [d[k] = v]: an existing key keeps its position and gets the new value,
    a new key goes to the end. *)
Fixpoint set (k : string) (v : Value) (d : t) : t :=
  match d with
  | [] => [(k, v)]
  | (k', v') :: d' =>
      if String.eqb k' k then (k', v) :: d'
      else (k', v') :: set k v d'
  end.

(** [d.get(k)]. *)
Fixpoint get (k : string) (d : t) : option Value :=
  match d with
  | [] => None
  | (k', v') :: d' => if String.eqb k' k then Some v' else get k d'
  end.

(** [list(d.keys())]. *)
Definition keys (d : t) : list string := map fst d.

End Dict.

(** ** The result set of the Kusto client *)

Record KustoResultColumn : Type := { column_name : string }.

Record KustoResultTable : Type := {
  columns : list KustoResultColumn;
  rows : list (list Value)
}.

Record KustoResponseDataSet : Type := {
  primary_results : option (list KustoResultTable)
}.

(** ** [format_query_results] *)

(** The inner loop [for i, value in enumerate(row): record[columns[i]] = value],
    started at index [i] with the record built so far.  [columns[i]] raises
    [IndexError] past the end of the list. *)
Fixpoint fill_record (cols : list string) (i : nat) (row : list Value)
    (record : Dict.t) : Outcome Dict.t :=
  match row with
  | [] => Ok record
  | value :: row' =>
      match nth_error cols i with
      | None => Raise (IndexError "list index out of range")
      | Some c => fill_record cols (S i) row' (Dict.set c value record)
      end
  end.

(** The outer loop [for row in primary_result.rows], with the list
    [formatted_results] built so far. *)
Fixpoint format_rows (cols : list string) (rws : list (list Value))
    (formatted_results : list Dict.t) : Outcome (list Dict.t) :=
  match rws with
  | [] => Ok formatted_results
  | row :: rws' =>
      match fill_record cols 0 row Dict.empty with
      | Raise e => Raise e
      | Ok record => format_rows cols rws' (formatted_results ++ [record])
      end
  end.

Definition format_query_results (result_set : option KustoResponseDataSet)
    : Outcome (list Dict.t) :=
  match result_set with
  | None => Ok []
  | Some rs =>
      match primary_results rs with
      | None | Some [] => Ok []
      | Some (primary_result :: _) =>
          let cols := map column_name (columns primary_result) in
          format_rows cols (rows primary_result) []
      end
  end.

(** The reference normaliser, written from the specification: no primary
    table gives the empty sequence; otherwise one record per row, pairing the
    column name at each position with the row's value at that position. *)
Definition normalize_spec (result_set : option KustoResponseDataSet)
    : list Dict.t :=
  match result_set with
  | None => []
  | Some rs =>
      match primary_results rs with
      | None | Some [] => []
      | Some (primary :: _) =>
          map (fun row => combine (map column_name (columns primary)) row)
              (rows primary)
      end
  end.

(** The first table of a result set, when there is one. *)
Definition primary_table (result_set : option KustoResponseDataSet)
    : option KustoResultTable :=
  match result_set with
  | Some {| primary_results := Some (primary :: _) |} => Some primary
  | _ => None
  end.

Definition column_names (tbl : KustoResultTable) : list string :=
  map column_name (columns tbl).

(** Appending a key the way a dictionary does: once, at its first position. *)
Definition add_key (ks : list string) (k : string) : list string :=
  if existsb (String.eqb k) ks then ks else ks ++ [k].

(** The names of a list in order of first appearance. *)
Definition first_occurrences (names : list string) : list string :=
  fold_left add_key names [].

(** Shapes of a primary table. *)
Definition rows_within (tbl : KustoResultTable) : Prop :=
  Forall (fun row => List.length row <= List.length (columns tbl)) (rows tbl).

Definition rows_aligned (tbl : KustoResultTable) : Prop :=
  Forall (fun row => List.length row = List.length (columns tbl)) (rows tbl).

Definition distinct_columns (tbl : KustoResultTable) : Prop :=
  NoDup (column_names tbl).

Definition on_primary (P : KustoResultTable -> Prop)
    (result_set : option KustoResponseDataSet) : Prop :=
  forall tbl, primary_table result_set = Some tbl -> P tbl.

(** ** Configuration *)

Record ADXConfig : Type := {
  cluster_url : string;
  database : string;
  tenant_id : option string;
  client_id : option string;
  client_secret : option string
}.

(** Truth value of an [Optional[str]]: [None] and [""] are false. *)
Definition truthy (o : option string) : bool :=
  match o with
  | None => false
  | Some s => Str.truthy s
  end.

(** [os.environ.get(name, default)]. *)
Fixpoint environ_get (environ : list (string * string)) (name default : string)
    : string :=
  match environ with
  | [] => default
  | (k, v) :: environ' =>
      if String.eqb k name then v else environ_get environ' name default
  end.

(** The module-level [config = ADXConfig(...)]. *)
Definition load_config (environ : list (string * string)) : ADXConfig :=
  {| cluster_url := environ_get environ "ADX_CLUSTER_URL" "";
     database := environ_get environ "ADX_DATABASE" "";
     tenant_id := Some (environ_get environ "AZURE_TENANT_ID" "");
     client_id := Some (environ_get environ "AZURE_CLIENT_ID" "");
     client_secret := Some (environ_get environ "AZURE_CLIENT_SECRET" "") |}.

(** ** Objects of the Azure libraries

    The constructors of the libraries are taken as the specification gives
    them: they build a handle from the strings they receive. *)

Record ClientSecretCredential : Type := {
  cred_tenant_id : option string;
  cred_client_id : option string;
  cred_client_secret : option string
}.

Record KustoConnectionStringBuilder : Type := {
  connection_string : string;
  aad_app_id : option string;
  app_key : option string;
  authority_id : option string
}.

Record KustoClient : Type := { kcsb : KustoConnectionStringBuilder }.

(** The log of calls.  It is not data of the program: it keeps what the
    mocks of the test suite observe, the entry into [get_kusto_client], the
    library objects constructed and the queries sent, so that "is not
    invoked" and "exactly one call" can be stated. *)
Inductive Event : Type :=
| Enter_get_kusto_client
| New_ClientSecretCredential (credential : ClientSecretCredential)
| New_KustoClient (client : KustoClient)
| Client_execute (client : KustoClient) (db query : string).

(** The [(database, query)] arguments of the [execute] calls of a log. *)
Fixpoint execute_calls (log : list Event) : list (string * string) :=
  match log with
  | [] => []
  | Client_execute _ db query :: log' => (db, query) :: execute_calls log'
  | _ :: log' => execute_calls log'
  end.

(** The clients constructed in a log. *)
Fixpoint clients_built (log : list Event) : list KustoClient :=
  match log with
  | [] => []
  | New_KustoClient c :: log' => c :: clients_built log'
  | _ :: log' => clients_built log'
  end.

Definition CONFIGURATION_MISSING : string :=
  "Azure Data Explorer configuration is missing. Please set ADX_CLUSTER_URL and ADX_DATABASE environment variables.".

Definition CREDENTIALS_MISSING : string :=
  "Client credentials are missing. Please set AZURE_TENANT_ID, AZURE_CLIENT_ID, and AZURE_CLIENT_SECRET environment variables.".

Definition SHOW_TABLES : string :=
  ".show tables | project TableName, Folder, DatabaseName".

Declare Scope monad_scope.
Delimit Scope monad_scope with monad.

Section Server.

(** The cluster behind the client: its state and what [client.execute]
    answers, a result set (possibly [None]) or an exception. *)
Variable Remote : Type.
Variable kusto_execute :
  Remote -> KustoClient -> string -> string ->
  Outcome (option KustoResponseDataSet) * Remote.

(** The state of the process: the global [config], the log of library
    calls and the cluster. *)
Record World : Type := {
  config : ADXConfig;
  calls : list Event;
  remote : Remote
}.

Definition M (A : Type) : Type := World -> Outcome A * World.

Definition ret {A} (a : A) : M A := fun w => (Ok a, w).

Definition bind {A B} (m : M A) (k : A -> M B) : M B :=
  fun w =>
    match m w with
    | (Ok a, w') => k a w'
    | (Raise e, w') => (Raise e, w')
    end.

Definition raise {A} (e : Exn) : M A := fun w => (Raise e, w).

Definition lift {A} (o : Outcome A) : M A := fun w => (o, w).

Definition read_config : M ADXConfig := fun w => (Ok (config w), w).

(** An assignment to the global [config], as the tests make. *)
Definition write_config (cfg : ADXConfig) : M unit :=
  fun w => (Ok tt, {| config := cfg; calls := calls w; remote := remote w |}).

Definition record_call (e : Event) : M unit :=
  fun w =>
    (Ok tt, {| config := config w; calls := calls w ++ [e];
               remote := remote w |}).

(** [client.execute(db, query)]. *)
Definition client_execute (client : KustoClient) (db query : string)
    : M (option KustoResponseDataSet) :=
  fun w =>
    let (answer, remote') := kusto_execute (remote w) client db query in
    (answer, {| config := config w;
                calls := calls w ++ [Client_execute client db query];
                remote := remote' |}).

Notation "x <- m ;; k" := (bind m (fun x => k))
  (at level 61, m at next level, right associativity) : monad_scope.
Notation "m ;; k" := (bind m (fun _ => k))
  (at level 61, right associativity) : monad_scope.
Local Open Scope monad_scope.

(** The [record_call] steps keep the log; the other steps are the
    statements of the source. *)
Definition get_kusto_client : M KustoClient :=
  record_call Enter_get_kusto_client ;;
  cfg <- read_config ;;
  if negb (forallb truthy [tenant_id cfg; client_id cfg; client_secret cfg])
  then raise (ValueError CREDENTIALS_MISSING)
  else
    let credential :=
      {| cred_tenant_id := tenant_id cfg;
         cred_client_id := client_id cfg;
         cred_client_secret := client_secret cfg |} in
    record_call (New_ClientSecretCredential credential) ;;
    let builder :=
      {| connection_string := cluster_url cfg;
         aad_app_id := client_id cfg;
         app_key := client_secret cfg;
         authority_id := tenant_id cfg |} in
    let client := {| kcsb := builder |} in
    record_call (New_KustoClient client) ;;
    ret client.

Definition execute_query (query : string) : M (list Dict.t) :=
  cfg <- read_config ;;
  if negb (Str.truthy (cluster_url cfg)) || negb (Str.truthy (database cfg))
  then raise (ValueError CONFIGURATION_MISSING)
  else
    client <- get_kusto_client ;;
    cfg <- read_config ;;
    result_set <- client_execute client (database cfg) query ;;
    lift (format_query_results result_set).

Definition list_tables : M (list Dict.t) :=
  cfg <- read_config ;;
  if negb (Str.truthy (cluster_url cfg)) || negb (Str.truthy (database cfg))
  then raise (ValueError CONFIGURATION_MISSING)
  else
    client <- get_kusto_client ;;
    let query := SHOW_TABLES in
    cfg <- read_config ;;
    result_set <- client_execute client (database cfg) query ;;
    lift (format_query_results result_set).

Definition get_table_schema (table_name : string) : M (list Dict.t) :=
  cfg <- read_config ;;
  if negb (Str.truthy (cluster_url cfg)) || negb (Str.truthy (database cfg))
  then raise (ValueError CONFIGURATION_MISSING)
  else
    client <- get_kusto_client ;;
    let query := (".show table " ++ table_name ++ " | getschema")%string in
    cfg <- read_config ;;
    result_set <- client_execute client (database cfg) query ;;
    lift (format_query_results result_set).

(** [sample_size] is [None] when the caller leaves the argument out.  The
    f-string writes the table name and then the sample size, which raises
    when the number has too many digits. *)
Definition sample_table_data (table_name : string) (sample_size : option Int)
    : M (list Dict.t) :=
  let sample_size :=
    match sample_size with Some x => x | None => IInt 10 end in
  cfg <- read_config ;;
  if negb (Str.truthy (cluster_url cfg)) || negb (Str.truthy (database cfg))
  then raise (ValueError CONFIGURATION_MISSING)
  else
    client <- get_kusto_client ;;
    size_text <- lift (Str.of_int sample_size) ;;
    let query := (table_name ++ " | sample " ++ size_text)%string in
    cfg <- read_config ;;
    result_set <- client_execute client (database cfg) query ;;
    lift (format_query_results result_set).

(** The four tools registered with [mcp.tool], and their dispatch. *)
Inductive ToolCall : Type :=
| Call_execute_query (query : string)
| Call_list_tables
| Call_get_table_schema (table_name : string)
| Call_sample_table_data (table_name : string) (sample_size : option Int).

Definition invoke (call : ToolCall) : M (list Dict.t) :=
  match call with
  | Call_execute_query query => execute_query query
  | Call_list_tables => list_tables
  | Call_get_table_schema table_name => get_table_schema table_name
  | Call_sample_table_data table_name sample_size =>
      sample_table_data table_name sample_size
  end.

(** The query text a tool builds, or the exception that building it
    raises. *)
Definition query_of (call : ToolCall) : Outcome string :=
  match call with
  | Call_execute_query query => Ok query
  | Call_list_tables => Ok SHOW_TABLES
  | Call_get_table_schema table_name =>
      Ok (".show table " ++ table_name ++ " | getschema")%string
  | Call_sample_table_data table_name sample_size =>
      match
        Str.of_int (match sample_size with Some x => x | None => IInt 10 end)
      with
      | Ok size_text => Ok (table_name ++ " | sample " ++ size_text)%string
      | Raise e => Raise e
      end
  end.

(** The client [get_kusto_client] builds from a configuration. *)
Definition client_of (cfg : ADXConfig) : KustoClient :=
  {| kcsb := {| connection_string := cluster_url cfg;
                aad_app_id := client_id cfg;
                app_key := client_secret cfg;
                authority_id := tenant_id cfg |} |}.

Definition credential_of (cfg : ADXConfig) : ClientSecretCredential :=
  {| cred_tenant_id := tenant_id cfg;
     cred_client_id := client_id cfg;
     cred_client_secret := client_secret cfg |}.

(** The two guards, as predicates of a configuration. *)
Definition configured (cfg : ADXConfig) : bool :=
  Str.truthy (cluster_url cfg) && Str.truthy (database cfg).

Definition has_credentials (cfg : ADXConfig) : bool :=
  truthy (tenant_id cfg) && truthy (client_id cfg) &&
  truthy (client_secret cfg).

(** The answer of the cluster to a query sent with the client of the
    current configuration. *)
Definition answer (w : World) (query : string)
    : Outcome (option KustoResponseDataSet) * Remote :=
  kusto_execute (remote w) (client_of (config w)) (database (config w))
                query.

End Server.

(** Sequencing of two outcomes: the first exception wins. *)
Definition and_then {A B : Type} (o : Outcome A) (f : A -> Outcome B)
    : Outcome B :=
  match o with
  | Ok a => f a
  | Raise e => Raise e
  end.

(** An [Optional[str]] that is [None] or empty. *)
Definition absent (o : option string) : Prop := o = None \/ o = Some "".

(** What [get_kusto_client] records when it builds a client. *)
Definition client_setup (cfg : ADXConfig) : list Event :=
  [Enter_get_kusto_client;
   New_ClientSecretCredential (credential_of cfg);
   New_KustoClient (client_of cfg)].

(** What the record of a row looks like next to the column list [cols]: its
    keys are the names of the first [length row] columns, and it falls short
    of the column list when the row does. *)
Definition prefix_record (cols : list string) (row : list Value)
    (record : Dict.t) : Prop :=
  Dict.keys record = first_occurrences (firstn (List.length row) cols) /\
  (List.length row < List.length cols -> Dict.keys record <> cols).

(** A record that carries the whole column list. *)
Definition full_record (tbl : KustoResultTable) (record : Dict.t) : Prop :=
  Dict.keys record = first_occurrences (column_names tbl) /\
  (distinct_columns tbl -> Dict.keys record = column_names tbl).

(** A record that holds, under the column name of a position, the value the
    row has there, for every position whose name does not come again later
    in the row. *)
Definition maps_positions (cols : list string) (row : list Value)
    (record : Dict.t) : Prop :=
  forall (j : nat) (c : string) (v : Value),
    nth_error cols j = Some c ->
    nth_error row j = Some v ->
    (forall j', j < j' < List.length row -> nth_error cols j' <> Some c) ->
    Dict.get c record = Some v.

(** The state of the process once the module is imported: the configuration
    read from the environment and no call made yet. *)
Definition start (Remote : Type) (environ : list (string * string))
    (r : Remote) : World Remote :=
  {| config := load_config environ; calls := []; remote := r |}.

(** ** Fixtures: the mocked library of the test suite *)

Module Fixture.

Definition column (name : string) : KustoResultColumn :=
  {| column_name := name |}.

Definition result_of (cols : list string) (rws : list (list Value))
    : option KustoResponseDataSet :=
  Some {| primary_results :=
            Some [ {| columns := map column cols; rows := rws |} ] |}.

(** The result set of [test_execute_query]. *)
Definition two_columns : option KustoResponseDataSet :=
  result_of ["Column1"; "Column2"]
            [[VStr "Value1"; VInt 1]; [VStr "Value2"; VInt 2]].

(** A row with more values than the table has columns. *)
Definition long_row : option KustoResponseDataSet :=
  result_of ["A"] [[VInt 1; VInt 2]].

(** Two columns of the same name. *)
Definition repeated_name : option KustoResponseDataSet :=
  result_of ["A"; "A"] [[VInt 1; VInt 2]].

(** Rows of different lengths. *)
Definition ragged : option KustoResponseDataSet :=
  result_of ["A"; "B"] [[VInt 1; VInt 2]; [VInt 3]].

(** [mock_client.execute.return_value = mock_result_set]: a cluster without
    state that answers every query with [two_columns]. *)
Definition mock_execute (r : unit) (_ : KustoClient) (_ _ : string)
    : Outcome (option KustoResponseDataSet) * unit :=
  (Ok two_columns, r).

(** The configuration of [test_client_credential_error] before the
    credentials are taken away. *)
Definition test_config : ADXConfig :=
  {| cluster_url := "https://testcluster.region.kusto.windows.net";
     database := "testdb";
     tenant_id := Some "test-tenant-id";
     client_id := Some "test-client-id";
     client_secret := Some "test-client-secret" |}.

Definition no_tenant : ADXConfig :=
  {| cluster_url := "https://testcluster.region.kusto.windows.net";
     database := "testdb";
     tenant_id := None;
     client_id := Some "test-client-id";
     client_secret := Some "test-client-secret" |}.

(** The configuration loaded from an empty environment. *)
Definition unset : ADXConfig := load_config [].

Definition world (cfg : ADXConfig) : World unit :=
  {| config := cfg; calls := []; remote := tt |}.

(** The records the tools return for [two_columns]. *)
Definition two_records : list Dict.t :=
  [[("Column1", VStr "Value1"); ("Column2", VInt 1)];
   [("Column1", VStr "Value2"); ("Column2", VInt 2)]].

(** The environment of [test_config_initialization]. *)
Definition test_environ : list (string * string) :=
  [("ADX_CLUSTER_URL", "https://testcluster.region.kusto.windows.net");
   ("ADX_DATABASE", "testdb");
   ("AZURE_TENANT_ID", "test-tenant-id");
   ("AZURE_CLIENT_ID", "test-client-id");
   ("AZURE_CLIENT_SECRET", "test-client-secret")].

(** An environment without [ADX_DATABASE]. *)
Definition no_database_environ : list (string * string) :=
  [("ADX_CLUSTER_URL", "https://testcluster.region.kusto.windows.net");
   ("AZURE_TENANT_ID", "test-tenant-id");
   ("AZURE_CLIENT_ID", "test-client-id");
   ("AZURE_CLIENT_SECRET", "test-client-secret")].

(** An environment without [AZURE_CLIENT_SECRET]. *)
Definition no_secret_environ : list (string * string) :=
  [("ADX_CLUSTER_URL", "https://testcluster.region.kusto.windows.net");
   ("ADX_DATABASE", "testdb");
   ("AZURE_TENANT_ID", "test-tenant-id");
   ("AZURE_CLIENT_ID", "test-client-id")].

(** A cluster that refuses every query. *)
Definition failing_execute (r : unit) (_ : KustoClient) (_ _ : string)
    : Outcome (option KustoResponseDataSet) * unit :=
  (Raise (KustoError "Request is invalid"), r).

(** A cluster that answers with a row longer than the column list. *)
Definition long_row_execute (r : unit) (_ : KustoClient) (_ _ : string)
    : Outcome (option KustoResponseDataSet) * unit :=
  (Ok long_row, r).

End Fixture.

(** * Properties *)

Unset Implicit Arguments.

(** ** Substrings *)

Lemma prefix_app (n post : string) : String.prefix n (n ++ post) = true.
Proof.
  induction n as [|a n IH]; simpl.
  - destruct post; reflexivity.
  - destruct (ascii_dec a a) as [_|ne]; [exact IH | now elim ne].
Qed.

Lemma prefix_inv (n h : string) :
  String.prefix n h = true -> exists post, h = (n ++ post)%string.
Proof.
  revert h; induction n as [|a n IH]; intros h H.
  - now exists h.
  - destruct h as [|b h]; [discriminate|]. simpl in H.
    destruct (ascii_dec a b) as [->|]; [|discriminate].
    destruct (IH _ H) as [post ->]. now exists post.
Qed.

Lemma contains_unfold (n h : string) :
  Str.contains n h =
  if String.prefix n h then true
  else match h with
       | EmptyString => false
       | String _ h' => Str.contains n h'
       end.
Proof. destruct h; reflexivity. Qed.

Lemma contains_app (pre n post : string) :
  Str.contains n (pre ++ n ++ post) = true.
Proof.
  induction pre as [|a pre IH].
  - simpl. rewrite contains_unfold, prefix_app. reflexivity.
  - rewrite contains_unfold. cbn [append].
    destruct (String.prefix n _); [reflexivity | exact IH].
Qed.

(** [Str.contains] decides "occurs as a contiguous part of". *)
Lemma contains_spec (n h : string) :
  Str.contains n h = true <->
  exists pre post, h = (pre ++ n ++ post)%string.
Proof.
  split.
  - induction h as [|a h IH]; rewrite contains_unfold;
      destruct (String.prefix n _) eqn:P; intro H.
    + apply prefix_inv in P. destruct P as [post ->]. now exists "", post.
    + discriminate.
    + apply prefix_inv in P. destruct P as [post ->]. now exists "", post.
    + destruct (IH H) as (pre & post & ->). now exists (String a pre), post.
  - intros (pre & post & ->). apply contains_app.
Qed.

Lemma append_assoc (a b c : string) :
  ((a ++ b) ++ c = a ++ b ++ c)%string.
Proof. induction a as [|x a IH]; simpl; [reflexivity | now rewrite IH]. Qed.

Lemma append_nil_r (a : string) : (a ++ "" = a)%string.
Proof. induction a as [|x a IH]; simpl; [reflexivity | now rewrite IH]. Qed.

(** [Str.decimal] writes a numeral that reads back as the number. *)
Lemma decimal_reads_back (n : Z) :
  option_map Z.of_int (NilZero.int_of_string (Str.decimal n)) = Some n.
Proof.
  unfold Str.decimal. rewrite NilZero.isi.
  - simpl. now rewrite DecimalZ.of_to.
  - destruct n; simpl; try discriminate.
    intro H. injection H. apply Unsigned.to_uint_nonnil.
  - destruct n; simpl; try discriminate.
    intro H. injection H. apply Unsigned.to_uint_nonnil.
Qed.

Lemma of_int_small (n : Z) :
  (Z.abs n < Str.digit_bound)%Z -> Str.of_int (IInt n) = Ok (Str.decimal n).
Proof.
  intro H. unfold Str.of_int.
  destruct (Z.ltb_spec (Z.abs n) Str.digit_bound); [reflexivity | lia].
Qed.

Lemma of_int_large (n : Z) :
  (Str.digit_bound <= Z.abs n)%Z ->
  Str.of_int (IInt n) = Raise (ValueError Str.DIGIT_LIMIT).
Proof.
  intro H. unfold Str.of_int.
  destruct (Z.ltb_spec (Z.abs n) Str.digit_bound); [lia | reflexivity].
Qed.

(** Magnitudes of at most two digits are far below the limit; so is the
    limit's own power of ten not. *)
Lemma below_hundred (n : Z) :
  (Z.abs n < 100)%Z -> (Z.abs n < 10 ^ 4300)%Z.
Proof.
  intro H. apply (Z.lt_trans _ (10 ^ 2)); [exact H|].
  apply Z.pow_lt_mono_r; reflexivity || discriminate.
Qed.

Lemma bound_reached : (10 ^ 4300 <= Z.abs (10 ^ 4300))%Z.
Proof.
  rewrite Z.abs_eq; [apply Z.le_refl|].
  apply Z.pow_nonneg. discriminate.
Qed.

Lemma of_int_10 : Str.of_int (IInt 10) = Ok "10".
Proof. apply (of_int_small 10), below_hundred. reflexivity. Qed.

Lemma truthy_empty (s : string) : Str.truthy s = false <-> s = "".
Proof. destruct s; simpl; split; congruence. Qed.

(** ** Dictionaries *)

Lemma keys_set (k : string) (v : Value) (d : Dict.t) :
  Dict.keys (Dict.set k v d) = add_key (Dict.keys d) k.
Proof.
  unfold add_key. induction d as [|[k' v'] d IH]; simpl.
  - reflexivity.
  - rewrite (String.eqb_sym k k').
    destruct (String.eqb k' k); simpl.
    + reflexivity.
    + rewrite IH.
      destruct (existsb (String.eqb k) (Dict.keys d)); reflexivity.
Qed.

Lemma set_fresh (k : string) (v : Value) (d : Dict.t) :
  ~ In k (Dict.keys d) -> Dict.set k v d = d ++ [(k, v)].
Proof.
  induction d as [|[k' v'] d IH]; simpl; intro H.
  - reflexivity.
  - destruct (String.eqb_spec k' k) as [->|ne].
    + elim H. now left.
    + rewrite IH; [reflexivity|]. intro. apply H. now right.
Qed.

Lemma get_set (k : string) (v : Value) (d : Dict.t) :
  Dict.get k (Dict.set k v d) = Some v.
Proof.
  induction d as [|[k' v'] d IH]; simpl.
  - now rewrite String.eqb_refl.
  - destruct (String.eqb k' k) eqn:E; simpl; rewrite E; auto.
Qed.

Lemma add_key_fresh (ks : list string) (k : string) :
  ~ In k ks -> add_key ks k = ks ++ [k].
Proof.
  unfold add_key. intro H.
  destruct (existsb (String.eqb k) ks) eqn:E; [|reflexivity].
  apply existsb_exists in E. destruct E as (x & Hin & Heq).
  apply String.eqb_eq in Heq. subst. contradiction.
Qed.

Lemma add_key_length (ks : list string) (k : string) :
  List.length (add_key ks k) <= S (List.length ks).
Proof.
  unfold add_key. destruct (existsb _ ks); [lia|].
  rewrite length_app. simpl. lia.
Qed.

Lemma fold_add_key_length (names ks : list string) :
  List.length (fold_left add_key names ks)
  <= List.length ks + List.length names.
Proof.
  revert ks; induction names as [|k names IH]; intro ks; simpl; [lia|].
  specialize (IH (add_key ks k)). pose proof (add_key_length ks k). lia.
Qed.

Lemma fold_add_key_distinct (names ks : list string) :
  NoDup (ks ++ names) -> fold_left add_key names ks = ks ++ names.
Proof.
  revert ks; induction names as [|k names IH]; intros ks H; simpl.
  - now rewrite app_nil_r.
  - rewrite add_key_fresh.
    + rewrite IH; rewrite <- app_assoc; [reflexivity | exact H].
    + apply NoDup_remove_2 in H. intro Hin. apply H.
      apply in_or_app. now left.
Qed.

Lemma first_occurrences_distinct (names : list string) :
  NoDup names -> first_occurrences names = names.
Proof.
  intro H. unfold first_occurrences. now rewrite fold_add_key_distinct.
Qed.

(** ** The loops of [format_query_results] *)

Lemma skipn_nth_error (A : Type) (l : list A) (i : nat) (c : A) :
  nth_error l i = Some c -> skipn i l = c :: skipn (S i) l.
Proof.
  revert i; induction l as [|x l IH]; intros [|i] H; simpl in *;
    try discriminate.
  - now inversion H.
  - now apply IH.
Qed.

Lemma firstn_nth_error (A : Type) (l : list A) (i : nat) (c : A) :
  nth_error l i = Some c -> firstn (S i) l = firstn i l ++ [c].
Proof.
  revert i; induction l as [|x l IH]; intros [|i] H; simpl in *;
    try discriminate.
  - now inversion H.
  - f_equal. now apply IH.
Qed.

Lemma nth_error_in_bounds (A : Type) (l : list A) (i : nat) :
  i < List.length l -> exists c, nth_error l i = Some c.
Proof.
  intro H. destruct (nth_error l i) as [c|] eqn:E; [now exists c|].
  apply nth_error_None in E. lia.
Qed.

(** The inner loop succeeds while it stays inside the column list, and the
    keys it adds are those of the columns it walks over. *)
Lemma fill_record_keys (cols : list string) (row : list Value) :
  forall (i : nat) (record : Dict.t),
    i + List.length row <= List.length cols ->
    exists r,
      fill_record cols i row record = Ok r /\
      Dict.keys r =
      fold_left add_key (firstn (List.length row) (skipn i cols))
                (Dict.keys record).
Proof.
  induction row as [|v row IH]; intros i record Hlen; simpl in *.
  - now exists record.
  - destruct (nth_error_in_bounds _ cols i) as [c Hc]; [lia|].
    rewrite Hc.
    destruct (IH (S i) (Dict.set c v record)) as (r & Hr & Hk); [lia|].
    exists r. split; [exact Hr|].
    rewrite Hk, (skipn_nth_error _ _ _ _ Hc), keys_set. reflexivity.
Qed.

(** With distinct column names the inner loop appends the pairs of the
    remaining columns and the row. *)
Lemma fill_record_distinct (cols : list string) (row : list Value) :
  NoDup cols ->
  forall (i : nat) (record : Dict.t),
    i + List.length row <= List.length cols ->
    Dict.keys record = firstn i cols ->
    fill_record cols i row record = Ok (record ++ combine (skipn i cols) row).
Proof.
  intro Hnd. induction row as [|v row IH]; intros i record Hlen Hk; simpl in *.
  - now rewrite combine_nil, app_nil_r.
  - destruct (nth_error_in_bounds _ cols i) as [c Hc]; [lia|].
    rewrite Hc, (skipn_nth_error _ _ _ _ Hc). simpl.
    assert (Hfresh : ~ In c (Dict.keys record)).
    { rewrite Hk. intro Hin.
      rewrite <- (firstn_skipn i cols), (skipn_nth_error _ _ _ _ Hc) in Hnd.
      apply NoDup_remove_2 in Hnd. apply Hnd, in_or_app. now left. }
    rewrite (set_fresh _ _ _ Hfresh), IH.
    + now rewrite <- app_assoc.
    + lia.
    + rewrite (firstn_nth_error _ _ _ _ Hc), <- Hk.
      unfold Dict.keys. now rewrite map_app.
Qed.

(** The outer loop appends one record per row, in the order of the rows. *)
Lemma format_rows_ok (cols : list string)
    (P : list Value -> Dict.t -> Prop) (rws : list (list Value)) :
  Forall (fun row => exists r,
            fill_record cols 0 row Dict.empty = Ok r /\ P row r) rws ->
  forall acc, exists out,
    format_rows cols rws acc = Ok (acc ++ out) /\ Forall2 P rws out.
Proof.
  induction 1 as [|row rws (r & Hr & HP) _ IH]; intro acc; simpl.
  - exists []. now rewrite app_nil_r.
  - rewrite Hr. destruct (IH (acc ++ [r])) as (out & Hout & HF).
    exists (r :: out). rewrite Hout, <- app_assoc. now split; [|constructor].
Qed.

Lemma format_rows_map (cols : list string) (f : list Value -> Dict.t)
    (rws : list (list Value)) :
  Forall (fun row => fill_record cols 0 row Dict.empty = Ok (f row)) rws ->
  forall acc, format_rows cols rws acc = Ok (acc ++ map f rws).
Proof.
  induction 1 as [|row rws Hr _ IH]; intro acc; simpl.
  - now rewrite app_nil_r.
  - now rewrite Hr, IH, <- app_assoc.
Qed.

Lemma Forall2_right (A B : Type) (P : A -> B -> Prop) (Q : B -> Prop)
    (l : list A) (l' : list B) :
  (forall a b, P a b -> Q b) -> Forall2 P l l' -> Forall Q l'.
Proof. intro H. induction 1; constructor; eauto. Qed.

(** The records of a table whose rows stay within its columns. *)
Lemma format_table_within (tbl : KustoResultTable) :
  rows_within tbl ->
  exists out,
    format_rows (column_names tbl) (rows tbl) [] = Ok out /\
    Forall2 (prefix_record (column_names tbl)) (rows tbl) out.
Proof.
  intro H.
  destruct (format_rows_ok (column_names tbl)
              (prefix_record (column_names tbl)) (rows tbl))
    with (acc := @nil Dict.t) as (out & Hout & HF).
  - unfold rows_within in H. eapply Forall_impl; [|exact H].
    intros row Hrow. simpl in Hrow.
    assert (Hlen : List.length row <= List.length (column_names tbl))
      by (unfold column_names; now rewrite length_map).
    destruct (fill_record_keys (column_names tbl) row 0 Dict.empty)
      as (r & Hr & Hk); [simpl; lia|].
    exists r. split; [exact Hr|]. split; [exact Hk|].
    intros Hlt Heq. simpl in Hk.
    pose proof (fold_add_key_length
                  (firstn (List.length row) (column_names tbl)) []) as Hb.
    rewrite <- Hk, Heq, length_firstn in Hb. simpl in Hb. lia.
  - exists out. now split.
Qed.

(** ** The result normaliser *)

Ltac primary_cases rs tbl :=
  destruct rs as [[[[|tbl ?]|]]|]; simpl.

Ltac the_primary H :=
  lazymatch type of H with
  | primary_table _ = Some _ => vm_compute in H; injection H as <-
  end.

(** C3, as amended: on every result set whose primary table has distinct
    column names and no row longer than the column list,
    [format_query_results] returns what the reference normaliser
    [normalize_spec] describes: one record per row, in row order, pairing the
    column name at each position with the row's value there.  A null result
    set, and one whose table list is empty or absent, give the empty
    sequence. *)
Theorem format_query_results_refines_spec
    (result_set : option KustoResponseDataSet) :
  on_primary rows_within result_set ->
  on_primary distinct_columns result_set ->
  format_query_results result_set = Ok (normalize_spec result_set) /\
  (primary_table result_set = None -> format_query_results result_set = Ok []).
Proof.
  intros Hwithin Hdistinct.
  primary_cases result_set tbl; try (split; reflexivity).
  split; [|discriminate].
  specialize (Hwithin tbl eq_refl). specialize (Hdistinct tbl eq_refl).
  change (map column_name (columns tbl)) with (column_names tbl).
  apply (format_rows_map (column_names tbl)
           (fun row => combine (column_names tbl) row) (rows tbl)).
  eapply Forall_impl; [|exact Hwithin].
  intros row Hrow. simpl in Hrow.
  apply (fill_record_distinct (column_names tbl) row Hdistinct 0 Dict.empty).
  - unfold column_names. rewrite length_map. simpl. exact Hrow.
  - reflexivity.
Qed.

(** The example of the specification, obtained from the theorem. *)
Lemma format_query_results_refines_spec_witness :
  on_primary rows_within Fixture.two_columns /\
  on_primary distinct_columns Fixture.two_columns /\
  format_query_results Fixture.two_columns =
  Ok [[("Column1", VStr "Value1"); ("Column2", VInt 1)];
      [("Column1", VStr "Value2"); ("Column2", VInt 2)]].
Proof.
  assert (Hw : on_primary rows_within Fixture.two_columns).
  { intros tbl H. the_primary H. repeat constructor. }
  assert (Hd : on_primary distinct_columns Fixture.two_columns).
  { intros tbl H. the_primary H.
    repeat constructor; simpl; intuition discriminate. }
  split; [exact Hw|]. split; [exact Hd|].
  exact (eq_trans
           (proj1 (format_query_results_refines_spec _ Hw Hd)) eq_refl).
Defined.

(** C3, as stated, fails: a row longer than the column list makes the
    normaliser raise [IndexError] where the reference returns a record, and
    with a repeated column name the record holds the later value only. *)
Lemma normaliser_differs_from_spec :
  format_query_results Fixture.long_row =
    Raise (IndexError "list index out of range") /\
  normalize_spec Fixture.long_row = [[("A", VInt 1)]] /\
  format_query_results Fixture.long_row <>
    Ok (normalize_spec Fixture.long_row) /\
  format_query_results Fixture.repeated_name = Ok [[("A", VInt 2)]] /\
  Dict.get "A" [("A", VInt 2)] <> Some (VInt 1) /\
  format_query_results Fixture.repeated_name <>
    Ok (normalize_spec Fixture.repeated_name).
Proof. repeat split; try reflexivity; vm_compute; discriminate. Qed.

(** C4, as amended: on every result set whose primary table has rows exactly
    as long as its column list, the normaliser succeeds and every record
    carries the same keys, in the order of the column list (a repeated name
    once, at its first position); with distinct column names the keys of
    every record are the column list itself. *)
Theorem records_share_the_column_keys
    (result_set : option KustoResponseDataSet) :
  on_primary rows_aligned result_set ->
  exists out,
    format_query_results result_set = Ok out /\
    forall tbl, primary_table result_set = Some tbl ->
                Forall (full_record tbl) out.
Proof.
  intro Haligned.
  primary_cases result_set tbl;
    try (exists []; split; [reflexivity | discriminate]).
  specialize (Haligned tbl eq_refl).
  assert (Hlen : Forall (fun row => List.length row
                                    = List.length (column_names tbl))
                        (rows tbl)).
  { eapply Forall_impl; [|exact Haligned]. intros row Hrow.
    unfold column_names. now rewrite length_map. }
  destruct (format_rows_ok (column_names tbl)
              (fun _ r => full_record tbl r) (rows tbl))
    with (acc := @nil Dict.t) as (out & Hout & HF).
  - eapply Forall_impl; [|exact Hlen]. intros row Hrow. simpl in Hrow.
    destruct (fill_record_keys (column_names tbl) row 0 Dict.empty)
      as (r & Hr & Hk); [simpl; lia|].
    exists r. split; [exact Hr|].
    simpl in Hk. rewrite Hrow, firstn_all in Hk.
    split; [exact Hk|].
    intro Hd. rewrite Hk. now apply first_occurrences_distinct.
  - exists out. split; [exact Hout|].
    intros tbl' H. injection H as <-.
    eapply Forall2_right; [|exact HF]. auto.
Qed.

Lemma records_share_the_column_keys_witness :
  on_primary rows_aligned Fixture.two_columns /\
  exists out,
    format_query_results Fixture.two_columns = Ok out /\
    forall tbl, primary_table Fixture.two_columns = Some tbl ->
                Forall (full_record tbl) out.
Proof.
  assert (Ha : on_primary rows_aligned Fixture.two_columns).
  { intros tbl H. the_primary H. repeat constructor. }
  split; [exact Ha|].
  exact (records_share_the_column_keys Fixture.two_columns Ha).
Defined.

(** C4, as stated, fails: with rows of different lengths the records of one
    result carry different keys. *)
Lemma ragged_rows_give_different_keys :
  format_query_results Fixture.ragged =
    Ok [[("A", VInt 1); ("B", VInt 2)]; [("A", VInt 3)]] /\
  Dict.keys [("A", VInt 1); ("B", VInt 2)] = ["A"; "B"] /\
  Dict.keys [("A", VInt 3)] = ["A"] /\
  ~ (exists ks, Forall (fun r => Dict.keys r = ks)
                  [[("A", VInt 1); ("B", VInt 2)]; [("A", VInt 3)]]).
Proof.
  repeat split; try reflexivity.
  intros (ks & H). inversion H as [|r l H1 H2]; subst.
  inversion H2 as [|r' l' H3 _]; subst. discriminate.
Qed.

(** C10: on every result set whose primary table has no row longer than its
    column list the normaliser returns a sequence (its indexing stays in
    bounds); the record of a row has the names of the first [length row]
    columns as its keys, so a row strictly shorter than the column list gives
    a record that lacks the full column list. *)
Theorem format_query_results_total_within_columns
    (result_set : option KustoResponseDataSet) :
  on_primary rows_within result_set ->
  exists out,
    format_query_results result_set = Ok out /\
    forall tbl, primary_table result_set = Some tbl ->
                Forall2 (prefix_record (column_names tbl)) (rows tbl) out.
Proof.
  intro Hwithin.
  primary_cases result_set tbl;
    try (exists []; split; [reflexivity | discriminate]).
  destruct (format_table_within tbl (Hwithin tbl eq_refl))
    as (out & Hout & HF).
  exists out. split; [exact Hout|].
  intros tbl' H. injection H as <-. exact HF.
Qed.

Lemma format_query_results_total_within_columns_witness :
  on_primary rows_within Fixture.ragged /\
  exists out,
    format_query_results Fixture.ragged = Ok out /\
    forall tbl, primary_table Fixture.ragged = Some tbl ->
                Forall2 (prefix_record (column_names tbl)) (rows tbl) out.
Proof.
  assert (Hw : on_primary rows_within Fixture.ragged).
  { intros tbl H. the_primary H. repeat constructor. }
  split; [exact Hw|].
  exact (format_query_results_total_within_columns Fixture.ragged Hw).
Defined.

(** ** The client factory and the tools *)

Lemma execute_calls_app (l l' : list Event) :
  execute_calls (l ++ l') = execute_calls l ++ execute_calls l'.
Proof.
  induction l as [|[| | |c db q] l IH]; simpl; rewrite ?IH; reflexivity.
Qed.

Lemma clients_built_app (l l' : list Event) :
  clients_built (l ++ l') = clients_built l ++ clients_built l'.
Proof.
  induction l as [|[| |c|] l IH]; simpl; rewrite ?IH; reflexivity.
Qed.

Lemma truthy_absent (o : option string) : truthy o = false <-> absent o.
Proof.
  unfold absent. destruct o as [[|a s]|]; simpl; split; intro H;
    try reflexivity; try discriminate; auto.
  - destruct H; discriminate.
Qed.

Lemma has_credentials_all (cfg : ADXConfig) :
  forallb truthy [tenant_id cfg; client_id cfg; client_secret cfg]
  = has_credentials cfg.
Proof.
  unfold has_credentials. simpl.
  now rewrite andb_true_r, andb_assoc.
Qed.

Lemma has_credentials_false (cfg : ADXConfig) :
  absent (tenant_id cfg) \/ absent (client_id cfg)
  \/ absent (client_secret cfg) ->
  has_credentials cfg = false.
Proof.
  unfold has_credentials.
  intros [H|[H|H]]; apply truthy_absent in H; rewrite H;
    rewrite ?andb_false_r; reflexivity.
Qed.

Lemma configured_false (cfg : ADXConfig) :
  cluster_url cfg = "" \/ database cfg = "" -> configured cfg = false.
Proof.
  unfold configured.
  intros [H|H]; rewrite H; simpl; rewrite ?andb_false_r; reflexivity.
Qed.

Lemma configured_true (cfg : ADXConfig) :
  cluster_url cfg <> "" -> database cfg <> "" -> configured cfg = true.
Proof.
  unfold configured. intros Hu Hd.
  destruct (cluster_url cfg); [now elim Hu|].
  destruct (database cfg); [now elim Hd|]. reflexivity.
Qed.

Lemma guard_configured (cfg : ADXConfig) :
  negb (Str.truthy (cluster_url cfg)) || negb (Str.truthy (database cfg))
  = negb (configured cfg).
Proof. unfold configured. now rewrite negb_andb. Qed.

Lemma query_of_sample_small (table_name : string) (n : Z) :
  (Z.abs n < Str.digit_bound)%Z ->
  query_of (Call_sample_table_data table_name (Some (IInt n)))
  = Ok (table_name ++ " | sample " ++ Str.decimal n)%string.
Proof. intro H. unfold query_of. now rewrite (of_int_small n H). Qed.

Lemma query_of_sample_large (table_name : string) (n : Z) :
  (Str.digit_bound <= Z.abs n)%Z ->
  query_of (Call_sample_table_data table_name (Some (IInt n)))
  = Raise (ValueError Str.DIGIT_LIMIT).
Proof. intro H. unfold query_of. now rewrite (of_int_large n H). Qed.

Lemma query_of_sample_default (table_name : string) :
  query_of (Call_sample_table_data table_name None)
  = Ok (table_name ++ " | sample 10")%string.
Proof. unfold query_of. now rewrite of_int_10. Qed.

(** The one tool call whose query text cannot be built: a sample size of
    more digits than the limit. *)
Lemma query_of_cases (call : ToolCall) :
  (exists q, query_of call = Ok q) \/
  (query_of call = Raise (ValueError Str.DIGIT_LIMIT) /\
   exists table_name n,
     call = Call_sample_table_data table_name (Some (IInt n)) /\
     (Str.digit_bound <= Z.abs n)%Z).
Proof.
  destruct call as [query| |table_name|table_name [[n|[|]]|]].
  - left. eexists. reflexivity.
  - left. eexists. reflexivity.
  - left. eexists. reflexivity.
  - destruct (Z.lt_ge_cases (Z.abs n) Str.digit_bound) as [Hlt|Hge].
    + left. eexists. apply query_of_sample_small. exact Hlt.
    + right. split; [now apply query_of_sample_large|].
      exists table_name, n. now split.
  - left. eexists. reflexivity.
  - left. eexists. reflexivity.
  - left. eexists. apply query_of_sample_default.
Qed.

Section ServerFacts.

Variable Remote : Type.
Variable kusto_execute :
  Remote -> KustoClient -> string -> string ->
  Outcome (option KustoResponseDataSet) * Remote.

Lemma get_kusto_client_missing (w : World Remote) :
  has_credentials (config w) = false ->
  get_kusto_client w =
  (Raise (ValueError CREDENTIALS_MISSING),
   {| config := config w;
      calls := calls w ++ [Enter_get_kusto_client];
      remote := remote w |}).
Proof.
  intro H. unfold get_kusto_client, bind, record_call, read_config. simpl.
  rewrite <- has_credentials_all in H. simpl in H. rewrite H. reflexivity.
Qed.

Lemma get_kusto_client_ok (w : World Remote) :
  has_credentials (config w) = true ->
  get_kusto_client w =
  (Ok (client_of (config w)),
   {| config := config w;
      calls := calls w ++ client_setup (config w);
      remote := remote w |}).
Proof.
  intro H. unfold get_kusto_client, bind, record_call, read_config. simpl.
  rewrite <- has_credentials_all in H. simpl in H. rewrite H. simpl.
  unfold ret, client_setup, client_of, credential_of.
  now rewrite <- !app_assoc.
Qed.

(** The configuration is state that can be written: an assignment shows in
    the next read. *)
Lemma write_config_read (cfg : ADXConfig) (w : World Remote) :
  read_config (snd (write_config cfg w)) = (Ok cfg, snd (write_config cfg w)).
Proof. reflexivity. Qed.

(** Every call of [get_kusto_client] is recorded. *)
Lemma get_kusto_client_recorded (w : World Remote) :
  exists l,
    calls (snd (get_kusto_client w))
    = calls w ++ Enter_get_kusto_client :: l.
Proof.
  destruct (has_credentials (config w)) eqn:H.
  - rewrite get_kusto_client_ok by exact H.
    cbn [snd calls client_setup]. eexists. reflexivity.
  - rewrite get_kusto_client_missing by exact H.
    cbn [snd calls]. eexists. reflexivity.
Qed.

Ltac open_tool call :=
  destruct call as [query| |table_name|table_name [n|]];
  unfold invoke, execute_query, list_tables, get_table_schema,
         sample_table_data;
  unfold bind at 1; unfold read_config at 1; cbv beta iota;
  rewrite guard_configured.

Lemma invoke_unconfigured (call : ToolCall) (w : World Remote) :
  configured (config w) = false ->
  invoke kusto_execute call w = (Raise (ValueError CONFIGURATION_MISSING), w).
Proof. intro H. open_tool call; rewrite H; reflexivity. Qed.

Lemma invoke_without_credentials (call : ToolCall) (w : World Remote) :
  configured (config w) = true ->
  has_credentials (config w) = false ->
  invoke kusto_execute call w =
  (Raise (ValueError CREDENTIALS_MISSING),
   {| config := config w;
      calls := calls w ++ [Enter_get_kusto_client];
      remote := remote w |}).
Proof.
  intros Hc Hk.
  open_tool call; rewrite Hc; cbv beta iota delta [negb];
    unfold bind at 1; rewrite (get_kusto_client_missing w Hk); reflexivity.
Qed.

(** The dispatch of [sample_table_data]. *)
Lemma invoke_sample_table_data (table_name : string)
    (sample_size : option Int) (w : World Remote) :
  invoke kusto_execute (Call_sample_table_data table_name sample_size) w
  = sample_table_data kusto_execute table_name sample_size w.
Proof. reflexivity. Qed.

(** A tool past both guards, once its query text is built. *)
Lemma invoke_ready (call : ToolCall) (w : World Remote) (q : string) :
  configured (config w) = true ->
  has_credentials (config w) = true ->
  query_of call = Ok q ->
  invoke kusto_execute call w =
  (and_then (fst (answer kusto_execute w q)) format_query_results,
   {| config := config w;
      calls := calls w ++ client_setup (config w) ++
               [Client_execute (client_of (config w))
                  (database (config w)) q];
      remote := snd (answer kusto_execute w q) |}).
Proof.
  intros Hc Hk Hq.
  open_tool call; rewrite Hc; cbv beta iota zeta delta [negb];
    unfold bind at 1; rewrite (get_kusto_client_ok w Hk);
    cbv beta iota zeta delta [query_of] in Hq;
    try (destruct (Str.of_int _) as [size_text|e0]; [|discriminate]);
    injection Hq as <-;
    unfold bind, read_config, client_execute, lift, answer;
    cbn [config calls remote];
    destruct (kusto_execute _ _ _ _) as [[rs|e] remote'];
    cbn [fst snd and_then]; rewrite <- app_assoc; reflexivity.
Qed.

(** A tool past both guards whose query text cannot be built: the client is
    there, the exception of the f-string comes before any [execute]. *)
Lemma invoke_unformattable (call : ToolCall) (w : World Remote) (e : Exn) :
  configured (config w) = true ->
  has_credentials (config w) = true ->
  query_of call = Raise e ->
  invoke kusto_execute call w =
  (Raise e,
   {| config := config w;
      calls := calls w ++ client_setup (config w);
      remote := remote w |}).
Proof.
  intros Hc Hk Hq.
  open_tool call; rewrite Hc; cbv beta iota zeta delta [negb];
    unfold bind at 1; rewrite (get_kusto_client_ok w Hk);
    cbv beta iota zeta delta [query_of] in Hq; try discriminate;
    destruct (Str.of_int _) as [size_text|e0]; try discriminate;
    injection Hq as <-; reflexivity.
Qed.


(** C1: with an empty cluster URL or an empty database name each of the
    four tools raises the [ValueError] whose message contains
    "configuration is missing", and leaves the state as it found it:
    nothing is added to the log of calls, so [get_kusto_client] was not
    entered and no client was built. *)
Theorem missing_configuration_fails_before_client
    (call : ToolCall) (w : World Remote) :
  cluster_url (config w) = "" \/ database (config w) = "" ->
  invoke kusto_execute call w
  = (Raise (ValueError CONFIGURATION_MISSING), w) /\
  Str.contains "configuration is missing"
               (message (ValueError CONFIGURATION_MISSING)) = true /\
  calls (snd (invoke kusto_execute call w)) = calls w.
Proof.
  intro H. apply configured_false in H.
  rewrite (invoke_unconfigured call w H). repeat split.
Qed.

(** C2: with a cluster URL and a database but one of the tenant id, client
    id and client secret empty or [None], each of the four tools raises,
    inside [get_kusto_client], the [ValueError] whose message contains
    "credentials are missing"; the log records the entry into
    [get_kusto_client] and nothing else, so no client is built. *)
Theorem missing_credentials_fail_in_get_kusto_client
    (call : ToolCall) (w : World Remote) :
  cluster_url (config w) <> "" ->
  database (config w) <> "" ->
  absent (tenant_id (config w)) \/ absent (client_id (config w))
  \/ absent (client_secret (config w)) ->
  fst (invoke kusto_execute call w)
  = Raise (ValueError CREDENTIALS_MISSING) /\
  Str.contains "credentials are missing"
               (message (ValueError CREDENTIALS_MISSING)) = true /\
  calls (snd (invoke kusto_execute call w))
  = calls w ++ [Enter_get_kusto_client] /\
  clients_built (calls (snd (invoke kusto_execute call w)))
  = clients_built (calls w).
Proof.
  intros Hu Hd Hk.
  rewrite (invoke_without_credentials call w
             (configured_true _ Hu Hd) (has_credentials_false _ Hk)).
  cbn [fst snd calls]. repeat split.
  rewrite clients_built_app. simpl. now rewrite app_nil_r.
Qed.

(** C5: in a configuration that passes both guards [execute_query q]
    makes one [execute] call, with the configured database and with [q] as
    it was given, and returns [format_query_results] of what that call
    answers (or the exception it raises). *)
Theorem execute_query_passes_query_verbatim
    (query : string) (w : World Remote) :
  configured (config w) = true ->
  has_credentials (config w) = true ->
  execute_calls (calls (snd (execute_query kusto_execute query w)))
  = execute_calls (calls w) ++ [(database (config w), query)] /\
  fst (execute_query kusto_execute query w)
  = and_then
      (fst (kusto_execute (remote w) (client_of (config w))
                          (database (config w)) query))
      format_query_results.
Proof.
  intros Hc Hk.
  change (execute_query kusto_execute query w)
    with (invoke kusto_execute (Call_execute_query query) w).
  rewrite (invoke_ready (Call_execute_query query) w query Hc Hk eq_refl).
  cbn [fst snd calls].
  split; [|reflexivity].
  rewrite !execute_calls_app. reflexivity.
Qed.

(** C6: a call of [list_tables] that returns makes exactly one [execute]
    call, against the configured database, with the literal
    ".show tables | project TableName, Folder, DatabaseName". *)
Theorem list_tables_issues_show_tables
    (w w' : World Remote) (out : list Dict.t) :
  list_tables kusto_execute w = (Ok out, w') ->
  execute_calls (calls w')
  = execute_calls (calls w) ++
    [(database (config w),
      ".show tables | project TableName, Folder, DatabaseName")] /\
  Str.contains ".show tables"
    ".show tables | project TableName, Folder, DatabaseName" = true.
Proof.
  change (list_tables kusto_execute w)
    with (invoke kusto_execute Call_list_tables w).
  intro H. split; [|reflexivity].
  destruct (configured (config w)) eqn:Hc.
  - destruct (has_credentials (config w)) eqn:Hk.
    + rewrite (invoke_ready Call_list_tables w _ Hc Hk eq_refl) in H.
      injection H as _ <-. cbn [calls].
      rewrite !execute_calls_app. reflexivity.
    + rewrite (invoke_without_credentials _ w Hc Hk) in H. discriminate.
  - rewrite (invoke_unconfigured _ w Hc) in H. discriminate.
Qed.

(** C7: in a configuration that passes both guards
    [get_table_schema t] makes exactly one [execute] call, whose query is
    ".show table " followed by [t] as given and by " | getschema"; that
    query contains ".show table t" and "getschema". *)
Theorem get_table_schema_issues_getschema
    (table_name : string) (w : World Remote) :
  configured (config w) = true ->
  has_credentials (config w) = true ->
  execute_calls (calls (snd (get_table_schema kusto_execute table_name w)))
  = execute_calls (calls w) ++
    [(database (config w),
      (".show table " ++ table_name ++ " | getschema")%string)] /\
  Str.contains (".show table " ++ table_name)
               (".show table " ++ table_name ++ " | getschema") = true /\
  Str.contains "getschema"
               (".show table " ++ table_name ++ " | getschema") = true.
Proof.
  intros Hc Hk.
  change (get_table_schema kusto_execute table_name w)
    with (invoke kusto_execute (Call_get_table_schema table_name) w).
  rewrite (invoke_ready (Call_get_table_schema table_name) w _ Hc Hk
             eq_refl).
  cbn [fst snd calls].
  split; [|split].
  - rewrite !execute_calls_app. reflexivity.
  - apply contains_spec. exists "", " | getschema".
    now rewrite append_assoc.
  - apply contains_spec.
  exists (".show table " ++ table_name ++ " | ")%string, "".
    now rewrite !append_assoc.
Qed.

(** C8, as amended: in a configuration that passes both guards
    [sample_table_data t n], for an integer [n] of at most 4300 digits
    (a magnitude below [10 ^ 4300]), makes exactly one [execute] call, whose
    query is [t] followed by " | sample " and by the decimal numeral of [n];
    without a sample size the query is [t] followed by " | sample 10",
    which contains "sample 10". *)
Theorem sample_table_data_issues_sample
    (table_name : string) (n : Z) (w : World Remote) :
  configured (config w) = true ->
  has_credentials (config w) = true ->
  (Z.abs n < 10 ^ 4300)%Z ->
  execute_calls
    (calls (snd (sample_table_data kusto_execute table_name
                                   (Some (IInt n)) w)))
  = execute_calls (calls w) ++
    [(database (config w),
      (table_name ++ " | sample " ++ Str.decimal n)%string)] /\
  execute_calls
    (calls (snd (sample_table_data kusto_execute table_name None w)))
  = execute_calls (calls w) ++
    [(database (config w), (table_name ++ " | sample 10")%string)] /\
  Str.contains "sample 10" (table_name ++ " | sample 10") = true.
Proof.
  intros Hc Hk Hn.
  change (sample_table_data kusto_execute table_name (Some (IInt n)) w)
    with (invoke kusto_execute
            (Call_sample_table_data table_name (Some (IInt n))) w).
  change (sample_table_data kusto_execute table_name None w)
    with (invoke kusto_execute (Call_sample_table_data table_name None) w).
  rewrite (invoke_ready _ w _ Hc Hk (query_of_sample_small table_name n Hn)).
  rewrite (invoke_ready _ w _ Hc Hk (query_of_sample_default table_name)).
  cbn [fst snd calls].
  split; [|split].
  - rewrite !execute_calls_app. reflexivity.
  - rewrite !execute_calls_app. reflexivity.
  - apply contains_spec. exists (table_name ++ " | ")%string, "".
    now rewrite !append_assoc.
Qed.

(** C9: whatever a tool does (return, raise either [ValueError], or pass
    on an exception of the client), the configuration after the call is the
    configuration before it. *)
Theorem tools_leave_config_unchanged (call : ToolCall) (w : World Remote) :
  config (snd (invoke kusto_execute call w)) = config w.
Proof.
  destruct (configured (config w)) eqn:Hc.
  - destruct (has_credentials (config w)) eqn:Hk.
    + destruct (query_of call) as [q|e] eqn:Hq.
      * now rewrite (invoke_ready _ w q Hc Hk Hq).
      * now rewrite (invoke_unformattable _ w e Hc Hk Hq).
    + now rewrite (invoke_without_credentials _ w Hc Hk).
  - now rewrite (invoke_unconfigured _ w Hc).
Qed.

End ServerFacts.

(** ** The tools on the fixtures of the test suite *)

(** [test_missing_config_cluster_url]. *)
Lemma missing_configuration_fails_before_client_witness :
  (cluster_url (config (Fixture.world Fixture.unset)) = ""
   \/ database (config (Fixture.world Fixture.unset)) = "") /\
  invoke Fixture.mock_execute (Call_execute_query "test query")
         (Fixture.world Fixture.unset)
  = (Raise (ValueError CONFIGURATION_MISSING), Fixture.world Fixture.unset).
Proof.
  assert (H : cluster_url (config (Fixture.world Fixture.unset)) = ""
              \/ database (config (Fixture.world Fixture.unset)) = "")
    by (left; reflexivity).
  split; [exact H|].
  exact (proj1 (missing_configuration_fails_before_client
                  unit Fixture.mock_execute
                  (Call_execute_query "test query") _ H)).
Defined.

(** [test_client_credential_error]. *)
Lemma missing_credentials_fail_in_get_kusto_client_witness :
  absent (tenant_id (config (Fixture.world Fixture.no_tenant))) /\
  fst (invoke Fixture.mock_execute (Call_execute_query "test query")
              (Fixture.world Fixture.no_tenant))
  = Raise (ValueError CREDENTIALS_MISSING) /\
  calls (snd (invoke Fixture.mock_execute (Call_execute_query "test query")
                     (Fixture.world Fixture.no_tenant)))
  = [Enter_get_kusto_client].
Proof.
  assert (Hu : cluster_url (config (Fixture.world Fixture.no_tenant)) <> "")
    by discriminate.
  assert (Hd : database (config (Fixture.world Fixture.no_tenant)) <> "")
    by discriminate.
  assert (Ht : absent (tenant_id (config (Fixture.world Fixture.no_tenant))))
    by (left; reflexivity).
  pose proof (missing_credentials_fail_in_get_kusto_client
                unit Fixture.mock_execute (Call_execute_query "test query")
                (Fixture.world Fixture.no_tenant) Hu Hd (or_introl Ht))
    as (Hraise & _ & Hcalls & _).
  split; [exact Ht|]. split; [exact Hraise | exact Hcalls].
Defined.

(** [test_execute_query]. *)
Lemma execute_query_passes_query_verbatim_witness :
  configured (config (Fixture.world Fixture.test_config)) = true /\
  has_credentials (config (Fixture.world Fixture.test_config)) = true /\
  execute_calls
    (calls (snd (execute_query Fixture.mock_execute "test query"
                               (Fixture.world Fixture.test_config))))
  = [("testdb", "test query")] /\
  fst (execute_query Fixture.mock_execute "test query"
                     (Fixture.world Fixture.test_config))
  = Ok Fixture.two_records.
Proof.
  pose proof (execute_query_passes_query_verbatim
                unit Fixture.mock_execute "test query"
                (Fixture.world Fixture.test_config) eq_refl eq_refl)
    as (Hcalls & Hout).
  split; [reflexivity|]. split; [reflexivity|].
  split; [exact Hcalls | exact Hout].
Defined.

(** [test_list_tables]. *)
Lemma list_tables_issues_show_tables_witness :
  list_tables Fixture.mock_execute (Fixture.world Fixture.test_config)
  = (Ok Fixture.two_records,
     snd (list_tables Fixture.mock_execute
                      (Fixture.world Fixture.test_config))) /\
  execute_calls
    (calls (snd (list_tables Fixture.mock_execute
                             (Fixture.world Fixture.test_config))))
  = [("testdb", ".show tables | project TableName, Folder, DatabaseName")].
Proof.
  assert (H : list_tables Fixture.mock_execute
                          (Fixture.world Fixture.test_config)
              = (Ok Fixture.two_records,
                 snd (list_tables Fixture.mock_execute
                                  (Fixture.world Fixture.test_config))))
    by reflexivity.
  split; [exact H|].
  exact (proj1 (list_tables_issues_show_tables
                  unit Fixture.mock_execute _ _ _ H)).
Defined.

(** [test_get_table_schema]. *)
Lemma get_table_schema_issues_getschema_witness :
  configured (config (Fixture.world Fixture.test_config)) = true /\
  has_credentials (config (Fixture.world Fixture.test_config)) = true /\
  execute_calls
    (calls (snd (get_table_schema Fixture.mock_execute "test_table"
                                  (Fixture.world Fixture.test_config))))
  = [("testdb", ".show table test_table | getschema")].
Proof.
  split; [reflexivity|]. split; [reflexivity|].
  exact (proj1 (get_table_schema_issues_getschema
                  unit Fixture.mock_execute "test_table"
                  (Fixture.world Fixture.test_config) eq_refl eq_refl)).
Defined.

(** [test_sample_table_data], and the same call without a sample size. *)
Lemma sample_table_data_issues_sample_witness :
  configured (config (Fixture.world Fixture.test_config)) = true /\
  has_credentials (config (Fixture.world Fixture.test_config)) = true /\
  (Z.abs 5 < 10 ^ 4300)%Z /\
  execute_calls
    (calls (snd (sample_table_data Fixture.mock_execute "test_table"
                   (Some (IInt 5)) (Fixture.world Fixture.test_config))))
  = [("testdb", "test_table | sample 5")] /\
  execute_calls
    (calls (snd (sample_table_data Fixture.mock_execute "test_table"
                   None (Fixture.world Fixture.test_config))))
  = [("testdb", "test_table | sample 10")].
Proof.
  assert (Hn : (Z.abs 5 < 10 ^ 4300)%Z)
    by (apply below_hundred; reflexivity).
  pose proof (sample_table_data_issues_sample
                unit Fixture.mock_execute "test_table" 5%Z
                (Fixture.world Fixture.test_config) eq_refl eq_refl Hn)
    as (Hgiven & Hdefault & _).
  split; [reflexivity|]. split; [reflexivity|]. split; [exact Hn|].
  split; [exact Hgiven | exact Hdefault].
Defined.

(** C8, as stated, fails: a sample size of 4301 digits makes the f-string
    raise after the client is built, and no [execute] call is made. *)
Lemma oversized_sample_size_sends_no_query :
  fst (sample_table_data Fixture.mock_execute "T"
         (Some (IInt (10 ^ 4300))) (Fixture.world Fixture.test_config))
  = Raise (ValueError Str.DIGIT_LIMIT) /\
  execute_calls
    (calls (snd (sample_table_data Fixture.mock_execute "T"
                   (Some (IInt (10 ^ 4300)))
                   (Fixture.world Fixture.test_config))))
  = [] /\
  clients_built
    (calls (snd (sample_table_data Fixture.mock_execute "T"
                   (Some (IInt (10 ^ 4300)))
                   (Fixture.world Fixture.test_config))))
  = [client_of Fixture.test_config].
Proof.
  rewrite <- (invoke_sample_table_data unit Fixture.mock_execute "T"
                (Some (IInt (10 ^ 4300)))
                (Fixture.world Fixture.test_config)).
  rewrite (invoke_unformattable unit Fixture.mock_execute _
             (Fixture.world Fixture.test_config) _ eq_refl eq_refl
             (query_of_sample_large "T" (10 ^ 4300) bound_reached)).
  repeat split.
Qed.

(** * Further properties of the normaliser *)

Lemma get_set_other (k c : string) (v : Value) (d : Dict.t) :
  k <> c -> Dict.get c (Dict.set k v d) = Dict.get c d.
Proof.
  intro Hne. induction d as [|[k' v'] d IH]; simpl.
  - destruct (String.eqb_spec k c); [contradiction | reflexivity].
  - destruct (String.eqb_spec k' k) as [->|Hk]; simpl.
    + destruct (String.eqb_spec k c); [contradiction | reflexivity].
    + destruct (String.eqb k' c); [reflexivity | exact IH].
Qed.

Lemma nodup_snoc (ks : list string) (k : string) :
  NoDup ks -> ~ In k ks -> NoDup (ks ++ [k]).
Proof.
  induction 1 as [|x ks Hx Hnd IH]; intro Hk; simpl.
  - constructor; [intros [] | constructor].
  - constructor.
    + intro Hin. apply in_app_or in Hin. destruct Hin as [Hin|[->|[]]].
      * contradiction.
      * apply Hk. now left.
    + apply IH. intro. apply Hk. now right.
Qed.

Lemma add_key_nodup (ks : list string) (k : string) :
  NoDup ks -> NoDup (add_key ks k).
Proof.
  intro H. unfold add_key.
  destruct (existsb (String.eqb k) ks) eqn:E; [exact H|].
  apply nodup_snoc; [exact H|]. intro Hin.
  assert (existsb (String.eqb k) ks = true) as E'.
  { apply existsb_exists. exists k. split; [exact Hin|].
    apply String.eqb_refl. }
  congruence.
Qed.

Lemma add_key_incl (ks cols : list string) (k : string) :
  incl ks cols -> In k cols -> incl (add_key ks k) cols.
Proof.
  intros H Hk. unfold add_key.
  destruct (existsb (String.eqb k) ks); [exact H|].
  apply incl_app; [exact H|]. intros x [<-|[]]. exact Hk.
Qed.

(** Past the end of the column list the inner loop raises. *)
Lemma fill_record_overflow (cols : list string) (row : list Value) :
  forall (i : nat) (record : Dict.t),
    i <= List.length cols ->
    List.length cols < i + List.length row ->
    fill_record cols i row record
    = Raise (IndexError "list index out of range").
Proof.
  induction row as [|v row IH]; intros i record Hi Hlen; simpl in *.
  - lia.
  - destruct (nth_error cols i) as [c|] eqn:Hc; [|reflexivity].
    assert (i < List.length cols)
      by (apply nth_error_Some; congruence).
    apply IH; lia.
Qed.

(** What the inner loop keeps of the record it starts from. *)
Lemma fill_record_invariant (cols : list string) (row : list Value) :
  forall (i : nat) (record r : Dict.t),
    fill_record cols i row record = Ok r ->
    (NoDup (Dict.keys record) -> NoDup (Dict.keys r)) /\
    (incl (Dict.keys record) cols -> incl (Dict.keys r) cols).
Proof.
  induction row as [|v row IH]; intros i record r H; simpl in H.
  - injection H as <-. auto.
  - destruct (nth_error cols i) as [c|] eqn:Hc; [|discriminate].
    destruct (IH _ _ _ H) as [Hnd Hincl]. rewrite keys_set in Hnd, Hincl.
    split; intro H0.
    + apply Hnd, add_key_nodup, H0.
    + apply Hincl, add_key_incl; [exact H0|].
      eapply nth_error_In; exact Hc.
Qed.

(** A name the loop does not walk over keeps its entry. *)
Lemma fill_record_get_frame (cols : list string) (c : string)
    (row : list Value) :
  forall (i : nat) (record r : Dict.t),
    fill_record cols i row record = Ok r ->
    (forall j, i <= j < i + List.length row -> nth_error cols j <> Some c) ->
    Dict.get c r = Dict.get c record.
Proof.
  induction row as [|v row IH]; intros i record r H Hfree; simpl in *.
  - now injection H as <-.
  - destruct (nth_error cols i) as [c0|] eqn:Hc; [|discriminate].
    rewrite (IH _ _ _ H) by (intros j Hj; apply Hfree; lia).
    apply get_set_other. intros ->. apply (Hfree i); [lia | exact Hc].
Qed.

(** A position whose name does not come again holds its value. *)
Lemma fill_record_get (cols : list string) (row : list Value) :
  forall (i : nat) (record r : Dict.t),
    fill_record cols i row record = Ok r ->
    forall (j : nat) (c : string) (v : Value),
      i <= j ->
      nth_error cols j = Some c ->
      nth_error row (j - i) = Some v ->
      (forall j', j < j' < i + List.length row ->
                  nth_error cols j' <> Some c) ->
      Dict.get c r = Some v.
Proof.
  induction row as [|v0 row IH]; intros i record r H j c v Hij Hc Hv Hlast;
    simpl in H.
  - destruct (j - i); discriminate.
  - destruct (nth_error cols i) as [c0|] eqn:Hc0; [|discriminate].
    destruct (Nat.eq_dec j i) as [->|Hne].
    + rewrite Nat.sub_diag in Hv. simpl in Hv. injection Hv as ->.
      assert (c0 = c) as -> by congruence.
      rewrite (fill_record_get_frame cols c row _ _ _ H).
      * apply get_set.
      * intros j' Hj'. apply Hlast. simpl. lia.
    + apply (IH _ _ _ H j c v); try lia; try exact Hc.
      * replace (j - i) with (S (j - S i)) in Hv by lia. exact Hv.
      * intros j' Hj'. apply Hlast. simpl. lia.
Qed.

(** A run of the outer loop that returns has filled one record per row. *)
Lemma format_rows_inv (cols : list string) (rws : list (list Value)) :
  forall (acc out : list Dict.t),
    format_rows cols rws acc = Ok out ->
    exists recs,
      out = acc ++ recs /\
      Forall2 (fun row r => fill_record cols 0 row Dict.empty = Ok r)
              rws recs.
Proof.
  induction rws as [|row rws IH]; intros acc out H; simpl in H.
  - injection H as <-. exists []. now rewrite app_nil_r.
  - destruct (fill_record cols 0 row Dict.empty) as [r|e] eqn:Hr;
      [|discriminate].
    destruct (IH _ _ H) as (recs & -> & HF).
    exists (r :: recs). rewrite <- app_assoc. now split; [|constructor].
Qed.

(** The outer loop raises as soon as a row is too long. *)
Lemma format_rows_overflow (cols : list string) (rws : list (list Value)) :
  Exists (fun row => List.length cols < List.length row) rws ->
  forall acc,
    format_rows cols rws acc = Raise (IndexError "list index out of range").
Proof.
  induction rws as [|row rws IH]; intros HE acc; simpl.
  - inversion HE.
  - destruct (le_lt_dec (List.length row) (List.length cols)) as [Hle|Hlt].
    + destruct (fill_record_keys cols row 0 Dict.empty) as (r & -> & _);
        [simpl; lia|].
      apply IH. inversion HE as [? ? Hbad|]; subst; [lia | assumption].
    + rewrite fill_record_overflow; [reflexivity | lia | simpl; lia].
Qed.

Lemma format_query_results_inv (result_set : option KustoResponseDataSet)
    (out : list Dict.t) :
  format_query_results result_set = Ok out ->
  match primary_table result_set with
  | None => out = []
  | Some tbl =>
      Forall2 (fun row r =>
                 fill_record (column_names tbl) 0 row Dict.empty = Ok r)
              (rows tbl) out
  end.
Proof.
  primary_cases result_set tbl; intro H; try (now injection H).
  destruct (format_rows_inv _ _ _ _ H) as (recs & -> & HF). exact HF.
Qed.

(** X1: [format_query_results] returns a list exactly when no row of the
    primary table is longer than its column list; when a row is longer it
    raises [IndexError("list index out of range")], and it raises nothing
    else. *)
Theorem format_query_results_raises_iff_long_row
    (result_set : option KustoResponseDataSet) :
  (on_primary rows_within result_set /\
   exists out, format_query_results result_set = Ok out) \/
  (~ on_primary rows_within result_set /\
   format_query_results result_set
   = Raise (IndexError "list index out of range")).
Proof.
  primary_cases result_set tbl;
    try (left; split; [intros t H; discriminate | now exists []]).
  destruct (Forall_Exists_dec
              (fun row => List.length row <= List.length (columns tbl))
              (fun row => le_dec (List.length row)
                                 (List.length (columns tbl)))
              (rows tbl)) as [Hall|Hex].
  - left. split.
    + intros t H. now injection H as <-.
    + destruct (format_table_within tbl Hall) as (out & Hout & _).
      now exists out.
  - right. split.
    + intro H. specialize (H tbl eq_refl). unfold rows_within in H.
      apply Exists_exists in Hex. destruct Hex as (row & Hin & Hbad).
      rewrite Forall_forall in H. exact (Hbad (H row Hin)).
    + apply format_rows_overflow.
      eapply Exists_impl; [|exact Hex].
      intros row Hbad. simpl in Hbad. rewrite length_map. lia.
Qed.

(** X2: a list returned by [format_query_results] has one record for every
    row of the primary table, and is empty when there is no primary table. *)
Theorem one_record_per_row
    (result_set : option KustoResponseDataSet) (out : list Dict.t) :
  format_query_results result_set = Ok out ->
  match primary_table result_set with
  | None => out = []
  | Some tbl => List.length out = List.length (rows tbl)
  end.
Proof.
  intro H. apply format_query_results_inv in H.
  destruct (primary_table result_set) as [tbl|]; [|exact H].
  symmetry. eapply Forall2_length. exact H.
Qed.

Lemma one_record_per_row_witness :
  format_query_results Fixture.ragged
  = Ok [[("A", VInt 1); ("B", VInt 2)]; [("A", VInt 3)]] /\
  List.length [[("A", VInt 1); ("B", VInt 2)]; [("A", VInt 3)]] = 2.
Proof.
  assert (H : format_query_results Fixture.ragged
              = Ok [[("A", VInt 1); ("B", VInt 2)]; [("A", VInt 3)]])
    by reflexivity.
  split; [exact H|].
  exact (one_record_per_row Fixture.ragged _ H).
Defined.

(** X3: in a list returned by [format_query_results], the record of a row
    holds under each column name the value the row has at that column's
    position; when a name stands at several positions of the row, the record
    holds the value of the last one. *)
Theorem records_hold_row_values
    (result_set : option KustoResponseDataSet) (out : list Dict.t)
    (tbl : KustoResultTable) :
  format_query_results result_set = Ok out ->
  primary_table result_set = Some tbl ->
  Forall2 (maps_positions (column_names tbl)) (rows tbl) out.
Proof.
  intros H Htbl. apply format_query_results_inv in H. rewrite Htbl in H.
  eapply Forall2_impl; [|exact H].
  intros row r Hr j c v Hc Hv Hlast.
  apply (fill_record_get _ _ _ _ _ Hr j c v); try assumption.
  - lia.
  - now rewrite Nat.sub_0_r.
Qed.

Lemma records_hold_row_values_witness :
  format_query_results Fixture.repeated_name = Ok [[("A", VInt 2)]] /\
  Forall2 (maps_positions ["A"; "A"]) [[VInt 1; VInt 2]] [[("A", VInt 2)]].
Proof.
  assert (H : format_query_results Fixture.repeated_name
              = Ok [[("A", VInt 2)]]) by reflexivity.
  split; [exact H|].
  exact (records_hold_row_values Fixture.repeated_name _ _ H eq_refl).
Defined.

(** X4: every record in a list returned by [format_query_results] has
    pairwise distinct keys, and each key is a column name of the primary
    table. *)
Theorem records_have_distinct_column_keys
    (result_set : option KustoResponseDataSet) (out : list Dict.t) :
  format_query_results result_set = Ok out ->
  Forall (fun r => NoDup (Dict.keys r)) out /\
  forall tbl, primary_table result_set = Some tbl ->
              Forall (fun r => incl (Dict.keys r) (column_names tbl)) out.
Proof.
  intro H. apply format_query_results_inv in H.
  destruct (primary_table result_set) as [tbl|].
  - split; [|intros t Ht; injection Ht as <-];
      (eapply Forall2_right; [|exact H]); intros row r Hr;
      apply fill_record_invariant in Hr; destruct Hr as [Hnd Hincl].
    + apply Hnd. constructor.
    + apply Hincl. intros x [].
  - subst out. split; [constructor | intros t Ht; discriminate].
Qed.

Lemma records_have_distinct_column_keys_witness :
  format_query_results Fixture.repeated_name = Ok [[("A", VInt 2)]] /\
  Forall (fun r => NoDup (Dict.keys r)) [[("A", VInt 2)]].
Proof.
  assert (H : format_query_results Fixture.repeated_name
              = Ok [[("A", VInt 2)]]) by reflexivity.
  split; [exact H|].
  exact (proj1 (records_have_distinct_column_keys
                  Fixture.repeated_name _ H)).
Defined.

(** * Further properties of the tools *)

Lemma format_query_results_raise_inv
    (result_set : option KustoResponseDataSet) (e : Exn) :
  format_query_results result_set = Raise e ->
  e = IndexError "list index out of range" /\
  ~ on_primary rows_within result_set.
Proof.
  primary_cases result_set tbl; try discriminate. intro H.
  destruct (Forall_Exists_dec
              (fun row => List.length row <= List.length (columns tbl))
              (fun row => le_dec (List.length row)
                                 (List.length (columns tbl)))
              (rows tbl)) as [Hall|Hex].
  - destruct (format_table_within tbl Hall) as (out & Hout & _).
    unfold column_names in Hout. congruence.
  - rewrite format_rows_overflow in H.
    + injection H as <-. split; [reflexivity|].
      intro Hw. specialize (Hw tbl eq_refl). unfold rows_within in Hw.
      apply Exists_exists in Hex. destruct Hex as (row & Hin & Hbad).
      rewrite Forall_forall in Hw. exact (Hbad (Hw row Hin)).
    + eapply Exists_impl; [|exact Hex].
      intros row Hbad. simpl in Hbad. rewrite length_map. lia.
Qed.

Lemma environ_get_unset (environ : list (string * string))
    (name default : string) :
  ~ In name (map fst environ) -> environ_get environ name default = default.
Proof.
  induction environ as [|[k v] environ IH]; simpl; intro H.
  - reflexivity.
  - destruct (String.eqb_spec k name) as [->|_].
    + elim H. now left.
    + apply IH. intro. apply H. now right.
Qed.

Lemma truthy_some (s : string) : s <> "" -> truthy (Some s) = true.
Proof. destruct s; [congruence | reflexivity]. Qed.

Lemma str_truthy (s : string) : s <> "" -> Str.truthy s = true.
Proof. destruct s; [congruence | reflexivity]. Qed.

Section ToolFacts.

Variable Remote : Type.
Variable kusto_execute :
  Remote -> KustoClient -> string -> string ->
  Outcome (option KustoResponseDataSet) * Remote.

(** A tool whose query text is built does what [execute_query] does on that
    text. *)
Lemma invoke_as_execute_query (call : ToolCall) (w : World Remote)
    (q : string) :
  query_of call = Ok q ->
  invoke kusto_execute call w = execute_query kusto_execute q w.
Proof.
  intro Hq.
  change (execute_query kusto_execute q w)
    with (invoke kusto_execute (Call_execute_query q) w).
  destruct (configured (config w)) eqn:Hc.
  - destruct (has_credentials (config w)) eqn:Hk.
    + rewrite (invoke_ready _ kusto_execute call w q Hc Hk Hq).
      now rewrite (invoke_ready _ kusto_execute (Call_execute_query q) w q
                     Hc Hk eq_refl).
    + now rewrite !invoke_without_credentials.
  - now rewrite !invoke_unconfigured.
Qed.

(** Past both guards a tool builds its client, whether or not its query text
    can be built, and leaves the configuration alone. *)
Lemma invoke_builds_client (call : ToolCall) (w : World Remote) :
  configured (config w) = true ->
  has_credentials (config w) = true ->
  clients_built (calls (snd (invoke kusto_execute call w)))
  = clients_built (calls w) ++ [client_of (config w)] /\
  config (snd (invoke kusto_execute call w)) = config w.
Proof.
  intros Hc Hk.
  destruct (query_of call) as [q|e] eqn:Hq.
  - rewrite (invoke_ready _ kusto_execute call w q Hc Hk Hq).
    cbn [snd calls config]. split; [|reflexivity].
    rewrite !clients_built_app. reflexivity.
  - rewrite (invoke_unformattable _ kusto_execute call w e Hc Hk Hq).
    cbn [snd calls config]. split; [|reflexivity].
    rewrite !clients_built_app. reflexivity.
Qed.

(** X5: a tool returns a list only after both guards have passed and its
    query text was built, and the list is [format_query_results] of a result
    set that [client.execute] answered for that text. *)
Theorem tool_success_comes_from_execute
    (call : ToolCall) (w : World Remote) (out : list Dict.t) :
  fst (invoke kusto_execute call w) = Ok out ->
  configured (config w) = true /\
  has_credentials (config w) = true /\
  exists q rs,
    query_of call = Ok q /\
    fst (answer kusto_execute w q) = Ok rs /\
    format_query_results rs = Ok out.
Proof.
  intro H.
  destruct (configured (config w)) eqn:Hc.
  - destruct (has_credentials (config w)) eqn:Hk.
    + destruct (query_of call) as [q|e] eqn:Hq.
      * rewrite (invoke_ready _ kusto_execute call w q Hc Hk Hq) in H.
        cbn [fst] in H.
        destruct (fst (answer kusto_execute w q)) as [rs|e] eqn:Ha;
          [|discriminate].
        cbn [and_then] in H.
        split; [reflexivity|]. split; [reflexivity|].
        exists q, rs. split; [reflexivity|]. split; [exact Ha | exact H].
      * rewrite (invoke_unformattable _ kusto_execute call w e Hc Hk Hq)
          in H.
        discriminate.
    + rewrite (invoke_without_credentials _ kusto_execute call w Hc Hk) in H.
      discriminate.
  - rewrite (invoke_unconfigured _ kusto_execute call w Hc) in H.
    discriminate.
Qed.

(** X6: the exceptions of a tool.  A tool that raises raises the
    configuration [ValueError] (a guard on the cluster URL and database
    failed), the credentials [ValueError] (the guard of [get_kusto_client]
    failed), the digit-limit [ValueError] of the f-string
    ([sample_table_data] with a sample size of more than 4300 digits), the
    exception that [client.execute] raised, or the [IndexError] of
    [format_query_results] on an answer with a row longer than its column
    list. *)
Theorem tool_exceptions
    (call : ToolCall) (w : World Remote) (e : Exn) :
  fst (invoke kusto_execute call w) = Raise e ->
  (configured (config w) = false /\
   e = ValueError CONFIGURATION_MISSING) \/
  (configured (config w) = true /\ has_credentials (config w) = false /\
   e = ValueError CREDENTIALS_MISSING) \/
  (e = ValueError Str.DIGIT_LIMIT /\
   exists table_name n,
     call = Call_sample_table_data table_name (Some (IInt n)) /\
     (10 ^ 4300 <= Z.abs n)%Z) \/
  (exists q,
     query_of call = Ok q /\
     fst (answer kusto_execute w q) = Raise e) \/
  (exists q rs,
     query_of call = Ok q /\
     fst (answer kusto_execute w q) = Ok rs /\
     ~ on_primary rows_within rs /\
     e = IndexError "list index out of range").
Proof.
  intro H.
  destruct (configured (config w)) eqn:Hc.
  - destruct (has_credentials (config w)) eqn:Hk.
    + destruct (query_of_cases call) as [[q Hq]|[Hq Hbig]].
      * rewrite (invoke_ready _ kusto_execute call w q Hc Hk Hq) in H.
        cbn [fst] in H.
        destruct (fst (answer kusto_execute w q)) as [rs|e'] eqn:Ha;
          cbn [and_then] in H.
        -- right. right. right. right.
           apply format_query_results_raise_inv in H. destruct H as [-> Hw].
           exists q, rs. now repeat split.
        -- right. right. right. left. injection H as <-.
           exists q. now split.
      * rewrite (invoke_unformattable _ kusto_execute call w _ Hc Hk Hq)
          in H.
        injection H as <-. right. right. left. split; [reflexivity|].
        exact Hbig.
    + rewrite (invoke_without_credentials _ kusto_execute call w Hc Hk) in H.
      injection H as <-. right. left. repeat split.
  - rewrite (invoke_unconfigured _ kusto_execute call w Hc) in H.
    injection H as <-. left. split; reflexivity.
Qed.

(** X7: an exception of [client.execute] leaves the tool as it is, neither
    wrapped nor retried: once the query text is built and sent, the tool
    raises the same exception after that one [execute] call, and the cluster
    is in the state the call left. *)
Theorem execute_exception_passes_through
    (call : ToolCall) (w : World Remote) (q : string) (e : Exn) :
  configured (config w) = true ->
  has_credentials (config w) = true ->
  query_of call = Ok q ->
  fst (answer kusto_execute w q) = Raise e ->
  fst (invoke kusto_execute call w) = Raise e /\
  execute_calls (calls (snd (invoke kusto_execute call w)))
  = execute_calls (calls w) ++ [(database (config w), q)] /\
  remote (snd (invoke kusto_execute call w))
  = snd (answer kusto_execute w q).
Proof.
  intros Hc Hk Hq He.
  rewrite (invoke_ready _ kusto_execute call w q Hc Hk Hq).
  cbn [fst snd calls remote]. rewrite He.
  repeat split. rewrite !execute_calls_app. reflexivity.
Qed.

(** X8: no client is kept between calls.  In a configuration that passes
    both guards every tool call builds one client, from the configuration of
    that moment, so two calls in a row build two. *)
Theorem each_call_builds_its_own_client
    (first second : ToolCall) (w : World Remote) :
  configured (config w) = true ->
  has_credentials (config w) = true ->
  clients_built (calls (snd (invoke kusto_execute first w)))
  = clients_built (calls w) ++ [client_of (config w)] /\
  clients_built
    (calls (snd (invoke kusto_execute second
                        (snd (invoke kusto_execute first w)))))
  = clients_built (calls w) ++ [client_of (config w); client_of (config w)].
Proof.
  intros Hc Hk.
  destruct (invoke_builds_client first w Hc Hk) as [Hbuilt Hcfg].
  split; [exact Hbuilt|].
  destruct (invoke_builds_client second (snd (invoke kusto_execute first w)))
    as [Hbuilt' _]; try (rewrite Hcfg; assumption).
  rewrite Hbuilt', Hbuilt, Hcfg, <- app_assoc. reflexivity.
Qed.

(** X9: the library calls of a tool whose query text is built, in order, in
    a configuration that passes both guards: the credential from tenant id,
    client id and secret; the client with the cluster URL as connection
    string, the client id as application id, the secret as application key
    and the tenant id as authority; then [execute] on that client with the
    database of the configuration and the query text. *)
Theorem tool_call_sequence
    (call : ToolCall) (w : World Remote) (q : string) :
  configured (config w) = true ->
  has_credentials (config w) = true ->
  query_of call = Ok q ->
  calls (snd (invoke kusto_execute call w))
  = calls w ++
    [Enter_get_kusto_client;
     New_ClientSecretCredential
       {| cred_tenant_id := tenant_id (config w);
          cred_client_id := client_id (config w);
          cred_client_secret := client_secret (config w) |};
     New_KustoClient
       {| kcsb := {| connection_string := cluster_url (config w);
                     aad_app_id := client_id (config w);
                     app_key := client_secret (config w);
                     authority_id := tenant_id (config w) |} |};
     Client_execute
       {| kcsb := {| connection_string := cluster_url (config w);
                     aad_app_id := client_id (config w);
                     app_key := client_secret (config w);
                     authority_id := tenant_id (config w) |} |}
       (database (config w)) q].
Proof.
  intros Hc Hk Hq.
  rewrite (invoke_ready _ kusto_execute call w q Hc Hk Hq). reflexivity.
Qed.

(** X10: the three tools with a query template do what [execute_query] does
    on the text they build, in every state: [list_tables] on the literal,
    [get_table_schema] on the text with the table name put in as given, and
    [sample_table_data] on the text with the table name and the numeral of
    the sample size (10 when left out), for a sample size of at most 4300
    digits. *)
Theorem templated_tools_are_execute_query
    (table_name : string) (n : Z) (w : World Remote) :
  (Z.abs n < 10 ^ 4300)%Z ->
  list_tables kusto_execute w
  = execute_query kusto_execute
      ".show tables | project TableName, Folder, DatabaseName" w /\
  get_table_schema kusto_execute table_name w
  = execute_query kusto_execute
      (".show table " ++ table_name ++ " | getschema") w /\
  sample_table_data kusto_execute table_name (Some (IInt n)) w
  = execute_query kusto_execute
      (table_name ++ " | sample " ++ Str.decimal n) w /\
  sample_table_data kusto_execute table_name None w
  = execute_query kusto_execute (table_name ++ " | sample 10") w.
Proof.
  intro Hn. split; [reflexivity|]. split; [reflexivity|]. split.
  - exact (invoke_as_execute_query
             (Call_sample_table_data table_name (Some (IInt n))) w _
             (query_of_sample_small table_name n Hn)).
  - exact (invoke_as_execute_query
             (Call_sample_table_data table_name None) w _
             (query_of_sample_default table_name)).
Qed.

(** X11: when the environment has no [ADX_CLUSTER_URL] or no [ADX_DATABASE],
    the configuration loaded from it makes every tool raise the
    configuration [ValueError] without any call to the libraries. *)
Theorem unset_cluster_or_database_fails
    (environ : list (string * string)) (r : Remote) (call : ToolCall) :
  ~ In "ADX_CLUSTER_URL" (map fst environ)
  \/ ~ In "ADX_DATABASE" (map fst environ) ->
  invoke kusto_execute call (start environ r)
  = (Raise (ValueError CONFIGURATION_MISSING), start environ r).
Proof.
  intro H. apply invoke_unconfigured. apply configured_false.
  cbn [start config load_config cluster_url database].
  destruct H as [H|H]; [left | right]; now apply environ_get_unset.
Qed.

(** X12: when the environment gives a cluster URL and a database but lacks
    one of [AZURE_TENANT_ID], [AZURE_CLIENT_ID] and [AZURE_CLIENT_SECRET],
    the configuration loaded from it makes every tool raise the credentials
    [ValueError], and no query is sent. *)
Theorem unset_credentials_fail
    (environ : list (string * string)) (r : Remote) (call : ToolCall) :
  environ_get environ "ADX_CLUSTER_URL" "" <> "" ->
  environ_get environ "ADX_DATABASE" "" <> "" ->
  ~ In "AZURE_TENANT_ID" (map fst environ)
  \/ ~ In "AZURE_CLIENT_ID" (map fst environ)
  \/ ~ In "AZURE_CLIENT_SECRET" (map fst environ) ->
  fst (invoke kusto_execute call (start environ r))
  = Raise (ValueError CREDENTIALS_MISSING) /\
  execute_calls (calls (snd (invoke kusto_execute call (start environ r))))
  = [].
Proof.
  intros Hu Hd Hk.
  rewrite invoke_without_credentials.
  - split; reflexivity.
  - apply configured_true; assumption.
  - apply has_credentials_false.
    cbn [start config load_config tenant_id client_id client_secret].
    unfold absent.
    destruct Hk as [H|[H|H]]; [left | right; left | right; right];
      right; f_equal; now apply environ_get_unset.
Qed.
(** X13: when the environment gives all five variables a non-empty value,
    every tool whose query text is built sends it to the database named by
    [ADX_DATABASE], through a client built with [ADX_CLUSTER_URL] as
    connection string, [AZURE_CLIENT_ID] as application id,
    [AZURE_CLIENT_SECRET] as application key and [AZURE_TENANT_ID] as
    authority. *)
Theorem loaded_environment_reaches_cluster
    (environ : list (string * string)) (r : Remote) (call : ToolCall)
    (q : string) :
  environ_get environ "ADX_CLUSTER_URL" "" <> "" ->
  environ_get environ "ADX_DATABASE" "" <> "" ->
  environ_get environ "AZURE_TENANT_ID" "" <> "" ->
  environ_get environ "AZURE_CLIENT_ID" "" <> "" ->
  environ_get environ "AZURE_CLIENT_SECRET" "" <> "" ->
  query_of call = Ok q ->
  execute_calls (calls (snd (invoke kusto_execute call (start environ r))))
  = [(environ_get environ "ADX_DATABASE" "", q)] /\
  clients_built (calls (snd (invoke kusto_execute call (start environ r))))
  = [{| kcsb :=
          {| connection_string := environ_get environ "ADX_CLUSTER_URL" "";
             aad_app_id := Some (environ_get environ "AZURE_CLIENT_ID" "");
             app_key := Some (environ_get environ "AZURE_CLIENT_SECRET" "");
             authority_id := Some (environ_get environ "AZURE_TENANT_ID" "")
          |} |}].
Proof.
  intros Hu Hd Ht Hc Hs Hq.
  rewrite (invoke_ready _ kusto_execute call (start environ r) q).
  - split; reflexivity.
  - apply configured_true; assumption.
  - unfold has_credentials.
    cbn [start config load_config tenant_id client_id client_secret].
    now rewrite !truthy_some.
  - exact Hq.
Qed.

(** X14: in a configuration that passes both guards, [sample_table_data]
    with a sample size of more than 4300 digits raises the digit-limit
    [ValueError] of the f-string after the client is built and before any
    [execute] call; configuration and cluster are left as they were. *)
Theorem oversized_sample_size_raises_before_execute
    (table_name : string) (n : Z) (w : World Remote) :
  configured (config w) = true ->
  has_credentials (config w) = true ->
  (10 ^ 4300 <= Z.abs n)%Z ->
  invoke kusto_execute (Call_sample_table_data table_name (Some (IInt n))) w
  = (Raise (ValueError Str.DIGIT_LIMIT),
     {| config := config w;
        calls := calls w ++
                 [Enter_get_kusto_client;
                  New_ClientSecretCredential (credential_of (config w));
                  New_KustoClient (client_of (config w))];
        remote := remote w |}).
Proof.
  intros Hc Hk Hn.
  exact (invoke_unformattable _ kusto_execute _ w _ Hc Hk
           (query_of_sample_large table_name n Hn)).
Qed.

(** X15: a [bool] given as sample size is written into the query as Python
    prints it, [True] or [False], not as a number. *)
Theorem bool_sample_size_is_written_as_a_word
    (table_name : string) (b : bool) (w : World Remote) :
  configured (config w) = true ->
  has_credentials (config w) = true ->
  execute_calls
    (calls (snd (sample_table_data kusto_execute table_name
                                   (Some (IBool b)) w)))
  = execute_calls (calls w) ++
    [(database (config w),
      (table_name ++ " | sample " ++ (if b then "True" else "False"))
      %string)].
Proof.
  intros Hc Hk.
  change (sample_table_data kusto_execute table_name (Some (IBool b)) w)
    with (invoke kusto_execute
            (Call_sample_table_data table_name (Some (IBool b))) w).
  rewrite (invoke_ready _ kusto_execute _ w
             (table_name ++ " | sample " ++ (if b then "True" else "False"))
             Hc Hk).
  - cbn [snd calls]. rewrite !execute_calls_app. reflexivity.
  - destruct b; reflexivity.
Qed.

End ToolFacts.

(** ** The further properties on the fixtures *)

Lemma tool_success_comes_from_execute_witness :
  fst (invoke Fixture.mock_execute Call_list_tables
              (Fixture.world Fixture.test_config))
  = Ok Fixture.two_records /\
  exists q rs,
    query_of Call_list_tables = Ok q /\
    fst (answer Fixture.mock_execute (Fixture.world Fixture.test_config) q)
    = Ok rs /\
    format_query_results rs = Ok Fixture.two_records.
Proof.
  assert (H : fst (invoke Fixture.mock_execute Call_list_tables
                          (Fixture.world Fixture.test_config))
              = Ok Fixture.two_records) by reflexivity.
  split; [exact H|].
  exact (proj2 (proj2 (tool_success_comes_from_execute
                         unit Fixture.mock_execute _ _ _ H))).
Defined.

Lemma tool_exceptions_witness :
  fst (invoke Fixture.long_row_execute (Call_execute_query "T")
              (Fixture.world Fixture.test_config))
  = Raise (IndexError "list index out of range") /\
  exists q rs,
    query_of (Call_execute_query "T") = Ok q /\
    fst (answer Fixture.long_row_execute
                (Fixture.world Fixture.test_config) q) = Ok rs /\
    ~ on_primary rows_within rs.
Proof.
  assert (H : fst (invoke Fixture.long_row_execute (Call_execute_query "T")
                          (Fixture.world Fixture.test_config))
              = Raise (IndexError "list index out of range"))
    by reflexivity.
  split; [exact H|].
  destruct (tool_exceptions unit Fixture.long_row_execute _ _ _ H)
    as [[Hc _]|[(_ & Hk & _)|[[He _]|[(q & _ & Ha)|(q & rs & Hq & Ha & Hw & _)]]]].
  - discriminate Hc.
  - discriminate Hk.
  - discriminate He.
  - discriminate Ha.
  - exists q, rs. split; [exact Hq|]. split; [exact Ha | exact Hw].
Defined.

Lemma execute_exception_passes_through_witness :
  query_of (Call_get_table_schema "T") = Ok ".show table T | getschema" /\
  fst (answer Fixture.failing_execute (Fixture.world Fixture.test_config)
              ".show table T | getschema")
  = Raise (KustoError "Request is invalid") /\
  fst (invoke Fixture.failing_execute (Call_get_table_schema "T")
              (Fixture.world Fixture.test_config))
  = Raise (KustoError "Request is invalid").
Proof.
  split; [reflexivity|]. split; [reflexivity|].
  exact (proj1 (execute_exception_passes_through
                  unit Fixture.failing_execute (Call_get_table_schema "T")
                  (Fixture.world Fixture.test_config)
                  ".show table T | getschema"
                  (KustoError "Request is invalid")
                  eq_refl eq_refl eq_refl eq_refl)).
Defined.

Lemma tool_call_sequence_witness :
  configured (config (Fixture.world Fixture.test_config)) = true /\
  has_credentials (config (Fixture.world Fixture.test_config)) = true /\
  List.length
    (calls (snd (invoke Fixture.mock_execute Call_list_tables
                        (Fixture.world Fixture.test_config)))) = 4.
Proof.
  split; [reflexivity|]. split; [reflexivity|].
  exact (f_equal (@List.length Event)
           (tool_call_sequence unit Fixture.mock_execute Call_list_tables
              (Fixture.world Fixture.test_config) SHOW_TABLES
              eq_refl eq_refl eq_refl)).
Defined.

Lemma templated_tools_are_execute_query_witness :
  (Z.abs 5 < 10 ^ 4300)%Z /\
  sample_table_data Fixture.mock_execute "T" (Some (IInt 5))
                    (Fixture.world Fixture.test_config)
  = execute_query Fixture.mock_execute "T | sample 5"
                  (Fixture.world Fixture.test_config).
Proof.
  assert (Hn : (Z.abs 5 < 10 ^ 4300)%Z)
    by (apply below_hundred; reflexivity).
  split; [exact Hn|].
  exact (proj1 (proj2 (proj2 (templated_tools_are_execute_query
                                unit Fixture.mock_execute "T" 5%Z
                                (Fixture.world Fixture.test_config) Hn)))).
Defined.

Lemma loaded_environment_reaches_cluster_witness :
  execute_calls
    (calls (snd (invoke Fixture.mock_execute (Call_get_table_schema "T")
                        (start Fixture.test_environ tt))))
  = [("testdb", ".show table T | getschema")].
Proof.
  assert (H1 : environ_get Fixture.test_environ "ADX_CLUSTER_URL" "" <> "")
    by discriminate.
  assert (H2 : environ_get Fixture.test_environ "ADX_DATABASE" "" <> "")
    by discriminate.
  assert (H3 : environ_get Fixture.test_environ "AZURE_TENANT_ID" "" <> "")
    by discriminate.
  assert (H4 : environ_get Fixture.test_environ "AZURE_CLIENT_ID" "" <> "")
    by discriminate.
  assert (H5 : environ_get Fixture.test_environ "AZURE_CLIENT_SECRET" ""
               <> "") by discriminate.
  exact (proj1 (loaded_environment_reaches_cluster
                  unit Fixture.mock_execute Fixture.test_environ tt
                  (Call_get_table_schema "T") ".show table T | getschema"
                  H1 H2 H3 H4 H5 eq_refl)).
Defined.

Lemma oversized_sample_size_raises_before_execute_witness :
  (10 ^ 4300 <= Z.abs (10 ^ 4300))%Z /\
  fst (invoke Fixture.mock_execute
              (Call_sample_table_data "T" (Some (IInt (10 ^ 4300))))
              (Fixture.world Fixture.test_config))
  = Raise (ValueError Str.DIGIT_LIMIT).
Proof.
  assert (Hn : (10 ^ 4300 <= Z.abs (10 ^ 4300))%Z) by exact bound_reached.
  split; [exact Hn|].
  exact (f_equal fst
           (oversized_sample_size_raises_before_execute
              unit Fixture.mock_execute "T" (10 ^ 4300)%Z
              (Fixture.world Fixture.test_config) eq_refl eq_refl Hn)).
Defined.

Lemma bool_sample_size_is_written_as_a_word_witness :
  configured (config (Fixture.world Fixture.test_config)) = true /\
  has_credentials (config (Fixture.world Fixture.test_config)) = true /\
  execute_calls
    (calls (snd (sample_table_data Fixture.mock_execute "T"
                   (Some (IBool true))
                   (Fixture.world Fixture.test_config))))
  = [("testdb", "T | sample True")].
Proof.
  split; [reflexivity|]. split; [reflexivity|].
  exact (bool_sample_size_is_written_as_a_word
           unit Fixture.mock_execute "T" true
           (Fixture.world Fixture.test_config) eq_refl eq_refl).
Defined.

Lemma each_call_builds_its_own_client_witness :
  configured (config (Fixture.world Fixture.test_config)) = true /\
  has_credentials (config (Fixture.world Fixture.test_config)) = true /\
  clients_built
    (calls (snd (invoke Fixture.mock_execute Call_list_tables
                   (snd (invoke Fixture.mock_execute
                                (Call_execute_query "test query")
                                (Fixture.world Fixture.test_config))))))
  = [client_of Fixture.test_config; client_of Fixture.test_config].
Proof.
  split; [reflexivity|]. split; [reflexivity|].
  exact (proj2 (each_call_builds_its_own_client
                  unit Fixture.mock_execute
                  (Call_execute_query "test query") Call_list_tables
                  (Fixture.world Fixture.test_config) eq_refl eq_refl)).
Defined.

Lemma unset_cluster_or_database_fails_witness :
  ~ In "ADX_DATABASE" (map fst Fixture.no_database_environ) /\
  invoke Fixture.mock_execute Call_list_tables
         (start Fixture.no_database_environ tt)
  = (Raise (ValueError CONFIGURATION_MISSING),
     start Fixture.no_database_environ tt).
Proof.
  assert (H : ~ In "ADX_DATABASE" (map fst Fixture.no_database_environ))
    by (simpl; intuition discriminate).
  split; [exact H|].
  exact (unset_cluster_or_database_fails
           unit Fixture.mock_execute Fixture.no_database_environ tt
           Call_list_tables (or_intror H)).
Defined.

Lemma unset_credentials_fail_witness :
  ~ In "AZURE_CLIENT_SECRET" (map fst Fixture.no_secret_environ) /\
  fst (invoke Fixture.mock_execute Call_list_tables
              (start Fixture.no_secret_environ tt))
  = Raise (ValueError CREDENTIALS_MISSING).
Proof.
  assert (H : ~ In "AZURE_CLIENT_SECRET"
                (map fst Fixture.no_secret_environ))
    by (simpl; intuition discriminate).
  assert (Hu : environ_get Fixture.no_secret_environ "ADX_CLUSTER_URL" ""
               <> "") by discriminate.
  assert (Hd : environ_get Fixture.no_secret_environ "ADX_DATABASE" ""
               <> "") by discriminate.
  split; [exact H|].
  exact (proj1 (unset_credentials_fail
                  unit Fixture.mock_execute Fixture.no_secret_environ tt
                  Call_list_tables Hu Hd (or_intror (or_intror H)))).
Defined.
